(** * AI PDF editor: text-block matching, heading inference, prompt parsing

    A shallow embedding of the pure core of the editor
    ([pdf_editor.py], [llm_client.py]) together with the properties of
    its matching and classification heuristics.

    Modelling conventions.
    - Python [str] values are modelled by [string]; the character
      functions ([lower], [isspace], [isupper]) are those of Python on
      code points below 128, characters above that range are treated as
      uncased and non-blank.
    - Font sizes and coordinates are Python floats: primitive binary64
      floats, with the operations and comparisons of the processor.
      The built-in [sum] rounds differently from one version of the
      interpreter to another; the extraction takes the interpreter as
      an argument.
    - The word-ratio tests are modelled over exact rationals [Q].
      Every word ratio the code compares ([c / n > 0.5],
      [overlap >= n * 0.6], ...) has an integer numerator and
      denominator, and binary64 division and multiplication are
      correctly rounded, so the comparison on [Q] agrees with the one on
      doubles for every word list shorter than 2^50.
    - A Python list that is appended to in a loop is an accumulator
      threaded through a recursive function.
    - The external collaborators (the language model, the document
      library) are explicit arguments. *)

From stdpp Require Import list.
From Stdlib Require Import String Ascii NArith ZArith QArith Bool Lia.
From Stdlib Require Import Floats Uint63.
Import ListNotations.

(** A decimal literal such as [1.2] denotes the nearest binary64 value,
    as it does in Python. *)
Set Warnings "-inexact-float".

Local Open Scope string_scope.
Local Open Scope bool_scope.

(** ** Python string primitives *)

(** The double quote character. *)
Definition dquote : ascii := "034"%char.

Module Py.

(** [c.isspace()] for a one-character string. *)
Definition isspace (c : ascii) : bool :=
  let n := N_of_ascii c in
  ((9 <=? n) && (n <=? 13) || (28 <=? n) && (n <=? 32))%N.

(** [c.isupper()] and [c.islower()] for a one-character string. *)
Definition isupper_char (c : ascii) : bool :=
  let n := N_of_ascii c in ((65 <=? n) && (n <=? 90))%N.

Definition islower_char (c : ascii) : bool :=
  let n := N_of_ascii c in ((97 <=? n) && (n <=? 122))%N.

Definition lower_char (c : ascii) : ascii :=
  if isupper_char c then ascii_of_N (N_of_ascii c + 32) else c.

(** [s.lower()] *)
Fixpoint lower (s : string) : string :=
  match s with
  | EmptyString => EmptyString
  | String c r => String (lower_char c) (lower r)
  end.

(** [s.isupper()]: no lowercase letter and at least one uppercase one. *)
Fixpoint has_upper (s : string) : bool :=
  match s with
  | EmptyString => false
  | String c r => isupper_char c || has_upper r
  end.

Fixpoint has_lower (s : string) : bool :=
  match s with
  | EmptyString => false
  | String c r => islower_char c || has_lower r
  end.

Definition isupper (s : string) : bool := has_upper s && negb (has_lower s).

(** Truth value of a string: [bool(s)]. *)
Definition truthy (s : string) : bool :=
  match s with EmptyString => false | _ => true end.

(** Truth value of an [Optional[str]]: [None] and the empty string are false. *)
Definition truthy_opt (o : option string) : bool :=
  match o with None => false | Some s => truthy s end.

(** [sub in s] *)
Fixpoint contains (sub s : string) : bool :=
  String.prefix sub s ||
  match s with
  | EmptyString => false
  | String _ r => contains sub r
  end.

(** [c in s] for a character [c]. *)
Definition contains_char (c : ascii) (s : string) : bool :=
  contains (String c EmptyString) s.

(** [any(c in s for c in cs)] *)
Definition any_char_in (cs : list ascii) (s : string) : bool :=
  existsb (fun c => contains_char c s) cs.

(** [s.startswith(p)] and [s.endswith(p)] *)
Definition startswith (s p : string) : bool := String.prefix p s.

Fixpoint endswith (s p : string) : bool :=
  String.eqb s p ||
  match s with
  | EmptyString => false
  | String _ r => endswith r p
  end.

(** [s.lstrip()], [s.rstrip()], [s.strip()] *)
Fixpoint lstrip (s : string) : string :=
  match s with
  | EmptyString => EmptyString
  | String c r => if isspace c then lstrip r else s
  end.

Fixpoint rstrip (s : string) : string :=
  match s with
  | EmptyString => EmptyString
  | String c r =>
      match rstrip r with
      | EmptyString => if isspace c then EmptyString else String c EmptyString
      | r' => String c r'
      end
  end.

Definition strip (s : string) : string := rstrip (lstrip s).

(** [s.split()]: maximal runs of non-blank characters.  [cur] is the word
    being read. *)
Fixpoint split_from (cur : string) (s : string) : list string :=
  match s with
  | EmptyString => if truthy cur then [cur] else []
  | String c r =>
      if isspace c then
        if truthy cur then cur :: split_from EmptyString r
        else split_from EmptyString r
      else split_from (cur ++ String c EmptyString) r
  end.

Definition split (s : string) : list string := split_from EmptyString s.

(** [s.replace(old, new)] for a non-empty [old]: [skip] counts the
    characters of the occurrence of [old] still to be dropped. *)
Fixpoint replace_from (old new : string) (skip : nat) (s : string) : string :=
  match s with
  | EmptyString => EmptyString
  | String c r =>
      match skip with
      | S k => replace_from old new k r
      | O =>
          if String.prefix old s
          then new ++ replace_from old new (String.length old - 1) r
          else String c (replace_from old new O r)
      end
  end.

(** For an empty [old] Python inserts [new] before every character and at
    the end. *)
Fixpoint interleave (new : string) (s : string) : string :=
  match s with
  | EmptyString => new
  | String c r => new ++ String c (interleave new r)
  end.

Definition replace (s old new : string) : string :=
  if truthy old then replace_from old new O s else interleave new s.

(** [s[n:]] *)
Fixpoint drop (n : nat) (s : string) : string :=
  match n, s with
  | O, _ => s
  | S k, EmptyString => EmptyString
  | S k, String _ r => drop k r
  end.

(** [s.replace(old, new, 1)]: the first occurrence only. *)
Fixpoint replace_first_from (old new : string) (s : string) : string :=
  match s with
  | EmptyString => if truthy old then EmptyString else new
  | String c r =>
      if String.prefix old s
      then new ++ drop (String.length old) s
      else String c (replace_first_from old new r)
  end.

Definition replace_first (s old new : string) : string :=
  replace_first_from old new s.

(** [s[:n]] and [s[:-n]] *)
Fixpoint take (n : nat) (s : string) : string :=
  match n, s with
  | O, _ => EmptyString
  | S k, EmptyString => EmptyString
  | S k, String c r => String c (take k r)
  end.

Definition drop_last (n : nat) (s : string) : string :=
  take (String.length s - n) s.

(** [len(set(xs) & set(ys))]: the distinct elements of [xs] that occur
    in [ys]. *)
Definition set_inter_size (xs ys : list string) : nat :=
  List.length
    (List.filter (fun w => existsb (String.eqb w) ys) (nodup string_dec xs)).

(** [len(set(xs))] *)
Definition set_size (xs : list string) : nat :=
  List.length (nodup string_dec xs).

(** [sum(1 for w in ws if w and w[0].isupper())] *)
Definition starts_upper (w : string) : bool :=
  match w with
  | EmptyString => false
  | String c _ => isupper_char c
  end.

Definition count_capitalized (ws : list string) : nat :=
  List.length (List.filter starts_upper ws).

End Py.

Local Open Scope list_scope.

(** ** Rational comparisons *)

Definition Qnat (n : nat) : Q := inject_Z (Z.of_nat n).

Definition Qlt_bool (a b : Q) : bool := negb (Qle_bool b a).

(** [a / b] for two counts, [b] being positive where the code divides. *)
Definition ratio (a b : nat) : Q := (Qnat a / Qnat b)%Q.

(** ** Data model *)

Definition BBox : Type := (float * float * float * float)%type.

(** [TextBlock]: the fields assigned by [__init__]; [is_heading] is the
    only one assigned again later. *)
Record TextBlock := mkTextBlock {
  text : string;
  bbox : BBox;
  page_num : nat;
  font_size : float;
  font_name : option string;
  is_heading : bool
}.

(** [EditRequest] *)
Record EditRequest := mkEditRequest {
  action : string;
  target_text : string;
  replacement_text : option string;
  context : option string
}.

(** ** Heading classifier: [TextBlock._is_heading] *)

Definition heading_punctuation : list ascii :=
  [","; ";"; ":"; "("; ")"; dquote; "'"]%char.

Definition _is_heading (self_text : string) : bool :=
  let text := Py.strip self_text in
  if negb (Py.truthy text) then false
  else
    let words := Py.split text in
    let word_count := List.length words in
    if (word_count <=? 7)%nat
       && Qlt_bool (5 # 10)
            (ratio (Py.count_capitalized words) (Nat.max 1 word_count))
    then true
    else if Py.endswith text ":" && (word_count <? 10)%nat then true
    else if Py.isupper text && (word_count <? 5)%nat then true
    else if (word_count <? 12)%nat
            && negb (Py.any_char_in heading_punctuation text)
    then true
    else false.

(** [TextBlock.__init__] *)
Definition new_TextBlock (text : string) (bbox : BBox) (page_num : nat)
    (font_size : float) (font_name : option string) : TextBlock :=
  mkTextBlock text bbox page_num font_size font_name (_is_heading text).

(** [text_block.is_heading = True] *)
Definition set_is_heading_true (b : TextBlock) : TextBlock :=
  mkTextBlock (text b) (bbox b) (page_num b) (font_size b) (font_name b) true.

(** ** Text-block matcher *)

(** [PDFEditor._fuzzy_match] *)
Definition _fuzzy_match (target text : string) (context : option string) : bool :=
  if Py.contains (Py.lower target) (Py.lower text) then true
  else
    let target_words := Py.split (Py.lower target) in
    let text_words := Py.split (Py.lower text) in
    let context_words :=
      match context with
      | Some c => if Py.truthy c then Py.split (Py.lower c) else []
      | None => []
      end in
    let word_overlap :=
      match target_words with
      | [] => 0%Q
      | _ => ratio (Py.set_inter_size target_words text_words)
                   (Py.set_size target_words)
      end in
    let context_match :=
      match context_words with
      | [] => 0%Q
      | _ => ratio (Py.set_inter_size context_words text_words)
                   (Py.set_size context_words)
      end in
    let is_heading_like :=
      (String.length (Py.strip text) <? 100)%nat
      && (Py.endswith (Py.strip text) ":"
          || negb (Py.any_char_in [","; "."; ";"]%char text))
      && Qlt_bool (5 # 10)
           (ratio (Py.count_capitalized (Py.split text))
                  (Nat.max 1 (List.length (Py.split text)))) in
    if is_heading_like then
      Qle_bool (3 # 10) word_overlap || Qle_bool (3 # 10) context_match
    else
      Qle_bool (5 # 10) word_overlap
      && (Qle_bool (2 # 10) context_match || negb (Py.truthy_opt context)).

(** The first loop of [_find_matching_text_blocks] (exact, then
    substring); [matching_blocks] is the list being appended to. *)
Fixpoint exact_loop (target_text_lower : string) (text_blocks : list TextBlock)
    (matching_blocks : list TextBlock) : list TextBlock :=
  match text_blocks with
  | [] => matching_blocks
  | block :: rest =>
      if String.eqb target_text_lower (Py.lower (text block)) then
        exact_loop target_text_lower rest (matching_blocks ++ [block])
      else if Py.contains target_text_lower (Py.lower (text block)) then
        exact_loop target_text_lower rest (matching_blocks ++ [block])
      else exact_loop target_text_lower rest matching_blocks
  end.

(** The second loop (fuzzy match with context). *)
Fixpoint fuzzy_loop (target_text : string) (context : option string)
    (text_blocks : list TextBlock) (matching_blocks : list TextBlock)
    : list TextBlock :=
  match text_blocks with
  | [] => matching_blocks
  | block :: rest =>
      if _fuzzy_match target_text (text block) context then
        fuzzy_loop target_text context rest (matching_blocks ++ [block])
      else fuzzy_loop target_text context rest matching_blocks
  end.

(** [overlap >= len(words) * 0.6] *)
Definition overlap_enough (words block_words : list string) : bool :=
  let overlap := Py.set_inter_size words block_words in
  Qle_bool (Qnat (List.length words) * (6 # 10)) (Qnat overlap).

(** The third loop (word overlap). *)
Fixpoint partial_loop (words : list string) (text_blocks : list TextBlock)
    (matching_blocks : list TextBlock) : list TextBlock :=
  match text_blocks with
  | [] => matching_blocks
  | block :: rest =>
      let block_words := Py.split (Py.lower (text block)) in
      if overlap_enough words block_words then
        partial_loop words rest (matching_blocks ++ [block])
      else partial_loop words rest matching_blocks
  end.

(** [not matching_blocks] *)
Definition is_empty {A} (l : list A) : bool :=
  match l with [] => true | _ => false end.

(** [PDFEditor._find_matching_text_blocks] *)
Definition _find_matching_text_blocks (target_text : string)
    (text_blocks : list TextBlock) (context : option string)
    : list TextBlock :=
  let matching_blocks := [] in
  let target_text_lower := Py.lower target_text in
  let matching_blocks :=
    exact_loop target_text_lower text_blocks matching_blocks in
  let matching_blocks :=
    if is_empty matching_blocks && Py.truthy_opt context then
      fuzzy_loop target_text context text_blocks matching_blocks
    else matching_blocks in
  let matching_blocks :=
    if is_empty matching_blocks then
      let words := Py.split target_text_lower in
      partial_loop words text_blocks matching_blocks
    else matching_blocks in
  matching_blocks.

(** The three stages on their own, each started from an empty result. *)
Definition stage1 (target_text : string) (text_blocks : list TextBlock)
    : list TextBlock :=
  exact_loop (Py.lower target_text) text_blocks [].

Definition stage2 (target_text : string) (text_blocks : list TextBlock)
    (context : option string) : list TextBlock :=
  fuzzy_loop target_text context text_blocks [].

Definition stage3 (target_text : string) (text_blocks : list TextBlock)
    : list TextBlock :=
  partial_loop (Py.split (Py.lower target_text)) text_blocks [].

(** Scratch blocks for the examples. *)
Definition zero_bbox : BBox := (0, 0, 0, 0)%float.

Definition plain_block (t : string) : TextBlock :=
  new_TextBlock t zero_bbox 0 12%float (Some "helv").

(** The tests of the three loops. *)
Definition exact_pred (target_text_lower : string) (block : TextBlock) : bool :=
  String.eqb target_text_lower (Py.lower (text block))
  || Py.contains target_text_lower (Py.lower (text block)).

Definition fuzzy_pred (target_text : string) (context : option string)
    (block : TextBlock) : bool :=
  _fuzzy_match target_text (text block) context.

Definition partial_pred (words : list string) (block : TextBlock) : bool :=
  overlap_enough words (Py.split (Py.lower (text block))).

Definition ai_example_text : string := "Artificial Intelligence is growing".

(** ** AI-text heuristic *)

Definition ai_indicators : list string :=
  [ "demonstrates"; "showcases"; "furthermore"; "moreover";
    "consequently"; "thus"; "therefore"; "in addition";
    "operational efficiency"; "high levels"; "significant impact" ].

(** [sum(1 for indicator in ai_indicators if indicator in text_lower)] *)
Definition ai_score_of (text_lower : string) : nat :=
  fold_left
    (fun acc indicator =>
       if Py.contains indicator text_lower then (acc + 1)%nat else acc)
    ai_indicators 0%nat.

(** [PDFEditor._seems_ai_generated]; the argument is the replacement
    text of a request, which may be [None]. *)
Definition _seems_ai_generated (text : option string) : bool :=
  match text with
  | None => false
  | Some text =>
      if negb (Py.truthy text) then false
      else
        let text_lower := Py.lower text in
        let ai_score := ai_score_of text_lower in
        (2 <=? ai_score)%nat
        || ((10 <? List.length (Py.split text))%nat && (1 <=? ai_score)%nat)
  end.

(** The number of indicator phrases occurring in the lowercased text, as
    the specification words it. *)
Definition indicator_count (text : string) : nat :=
  List.length
    (List.filter (fun phrase => Py.contains phrase (Py.lower text))
                 ai_indicators).

(** ** Fallback humanizer *)

(** [LLMClient._simple_humanize] *)
Definition _simple_humanize (text : string) : string :=
  let text := Py.replace text "utilize" "use" in
  let text := Py.replace text "demonstrate" "show" in
  let text := Py.replace text "furthermore" "also" in
  let text := Py.replace text "in addition" "plus" in
  let text := Py.replace text "consequently" "so" in
  if Py.startswith text "The system" then
    Py.replace_first text "The system" "This system"
  else if Py.startswith text "This approach" then
    Py.replace_first text "This approach" "Our approach"
  else text.

(** ** Text extraction *)

(** What [page.get_text("dict")] returns: a page is a list of structural
    blocks, a text block has lines, a line has spans; an image block has
    no ["lines"] key. *)
Record Span := mkSpan {
  span_text : string;
  span_bbox : BBox;
  span_size : float;
  span_font : string
}.

Definition Line : Type := list Span.

Inductive Block : Type :=
| ImageBlock
| TextLines (lines : list Line).

Definition PageDict : Type := list Block.

Definition Document : Type := list PageDict.

(** *** The built-in [sum] on a list of floats

    [sum] starts from the integer [0]; the first float item turns the
    running total into the float [0 + x].  From there CPython up to
    3.11 adds the items from left to right, and CPython from 3.12 on
    adds them with Neumaier's compensation: beside the running total
    [f] it keeps the rounding errors in [c] and adds [c] at the end
    when it is finite and not zero. *)
Inductive Interpreter : Type :=
| AddsLeftToRight
| AddsCompensated.

Definition sum_left_to_right (l : list float) : float :=
  fold_left PrimFloat.add l 0%float.

Definition compensated_step (st : float * float) (x : float)
    : float * float :=
  let '(f_result, c) := st in
  let t := (f_result + x)%float in
  let c :=
    if PrimFloat.leb (PrimFloat.abs x) (PrimFloat.abs f_result)
    then (c + ((f_result - t) + x))%float
    else (c + ((x - t) + f_result))%float in
  (t, c).

Definition sum_compensated (l : list float) : float :=
  match l with
  | [] => 0%float
  | x :: items =>
      let '(f_result, c) :=
        fold_left compensated_step items ((0 + x)%float, 0%float) in
      if negb (PrimFloat.eqb c 0%float) && PrimFloat.is_finite c
      then (f_result + c)%float
      else f_result
  end.

(** [sum(font_sizes)] *)
Definition py_sum (py : Interpreter) (l : list float) : float :=
  match py with
  | AddsLeftToRight => sum_left_to_right l
  | AddsCompensated => sum_compensated l
  end.

(** [len(font_sizes)] as the divisor of a float; exact for every
    length below 2^53. *)
Definition float_of_len (n : nat) : float :=
  PrimFloat.of_uint63 (Uint63.of_Z (Z.of_nat n)).

(** [PDFEditor._calculate_average_font_size]; its argument is the
    dictionary of the whole page. *)
Definition _calculate_average_font_size (py : Interpreter)
    (blocks : PageDict) : float :=
  let font_sizes :=
    fold_left
      (fun font_sizes block =>
         match block with
         | ImageBlock => font_sizes
         | TextLines lines =>
             fold_left
               (fun font_sizes line =>
                  fold_left
                    (fun font_sizes span => font_sizes ++ [span_size span])
                    line font_sizes)
               lines font_sizes
         end)
      blocks [] in
  match font_sizes with
  | [] => 12%float
  | _ => (py_sum py font_sizes / float_of_len (List.length font_sizes))%float
  end.

(** The state of the extraction loops: [text_blocks] and [full_text]. *)
Definition ExtractState : Type := (list TextBlock * string)%type.

(** The body of the innermost loop of [extract_text_blocks]; [blocks] is
    the dictionary of the current page. *)
Definition extract_span (py : Interpreter) (blocks : PageDict) (page_num : nat)
    (st : ExtractState) (span : Span) : ExtractState :=
  let '(text_blocks, full_text) := st in
  let text := Py.strip (span_text span) in
  if Py.truthy text then
    let bbox := span_bbox span in
    let font_size := span_size span in
    let font_name := span_font span in
    let text_block := new_TextBlock text bbox page_num font_size (Some font_name) in
    let avg_font_size := _calculate_average_font_size py blocks in
    let text_block :=
      if PrimFloat.ltb (avg_font_size * 1.2)%float font_size
      then set_is_heading_true text_block
      else text_block in
    (text_blocks ++ [text_block], (full_text ++ text ++ " ")%string)
  else st.

Definition extract_line (py : Interpreter) (blocks : PageDict)
    (page_num : nat) (st : ExtractState) (line : Line) : ExtractState :=
  fold_left (extract_span py blocks page_num) line st.

Definition extract_block (py : Interpreter) (blocks : PageDict)
    (page_num : nat) (st : ExtractState) (block : Block) : ExtractState :=
  match block with
  | ImageBlock => st
  | TextLines lines => fold_left (extract_line py blocks page_num) lines st
  end.

Definition extract_page (py : Interpreter) (st : ExtractState)
    (p : nat * PageDict) : ExtractState :=
  let '(page_num, blocks) := p in
  fold_left (extract_block py blocks page_num) blocks st.

(** [for page_num in range(len(doc))] *)
Definition enumerate {A} (l : list A) : list (nat * A) :=
  combine (seq 0 (List.length l)) l.

(** [PDFEditor.extract_text_blocks] *)
Definition extract_text_blocks (py : Interpreter) (doc : Document)
    : list TextBlock * string :=
  let '(text_blocks, full_text) :=
    fold_left (extract_page py) (enumerate doc) ([], EmptyString) in
  (text_blocks, Py.strip full_text).

(** *** The extraction as a map over the spans of each page *)

Definition block_spans (block : Block) : list Span :=
  match block with
  | ImageBlock => []
  | TextLines lines => List.concat lines
  end.

Definition page_spans (blocks : PageDict) : list Span :=
  flat_map block_spans blocks.

Definition average_or_12 (py : Interpreter) (sizes : list float) : float :=
  match sizes with
  | [] => 12%float
  | _ => (py_sum py sizes / float_of_len (List.length sizes))%float
  end.

(** Average font size over the spans of the whole page. *)
Definition page_average (py : Interpreter) (blocks : PageDict) : float :=
  average_or_12 py (List.map span_size (page_spans blocks)).

(** Average font size over the spans of one structural block. *)
Definition block_average (py : Interpreter) (block : Block) : float :=
  average_or_12 py (List.map span_size (block_spans block)).

Definition keeps_span (span : Span) : bool :=
  Py.truthy (Py.strip (span_text span)).

(** The block extracted from a span when the font-size test uses the
    average [avg]. *)
Definition classified_block (avg : float) (page_num : nat) (span : Span)
    : TextBlock :=
  mkTextBlock (Py.strip (span_text span)) (span_bbox span) page_num
    (span_size span) (Some (span_font span))
    (_is_heading (Py.strip (span_text span))
     || PrimFloat.ltb (avg * 1.2)%float (span_size span)).

Definition page_text_blocks (py : Interpreter) (p : nat * PageDict)
    : list TextBlock :=
  List.map (classified_block (page_average py (snd p)) (fst p))
           (List.filter keeps_span (page_spans (snd p))).

(** A page with two structural blocks: a one-span block set in 14 pt and
    a block of three spans set in 10 pt. *)
Definition large_block : Block :=
  TextLines [[mkSpan "see the notes, then continue" zero_bbox 14 "Times"]].

Definition body_block : Block :=
  TextLines [[mkSpan "first line of the body," zero_bbox 10 "Times";
              mkSpan "second line of the body," zero_bbox 10 "Times"];
             [mkSpan "third line of the body," zero_bbox 10 "Times"]].

Definition two_block_doc : Document := [[large_block; body_block]].

(** ** External collaborators *)

(** The language-model client: [openai_available] and the call
    [_call_openai(system_prompt, user_prompt)], which returns the text
    of the answer or raises ([None]). *)
Record LLMClient := mkLLMClient {
  openai_available : bool;
  _call_openai : string -> string -> option string
}.

(** The document library, as far as the editor uses it.  Pages are
    addressed by number; [insert_text] raises ([None]) on a font it does
    not know and then leaves the document as it was. *)
Record DocumentModel := mkDocumentModel {
  Doc : Type;
  (** [page.draw_rect(rect, color=(1, 1, 1), fill=(1, 1, 1))] *)
  draw_rect : Doc -> nat -> BBox -> Doc;
  (** [page.insert_text(point, text, fontsize=, fontname=, color=(0, 0, 0))];
      the last argument is [None] when no [fontname] is passed. *)
  insert_text :
    Doc -> nat -> float * float -> option string -> float -> option string
    -> option Doc;
  (** [page.add_highlight_annot(rect)] coloured yellow and updated. *)
  add_highlight_annot : Doc -> nat -> BBox -> Doc
}.

Arguments draw_rect {_} _ _ _.
Arguments insert_text {_} _ _ _ _ _ _.
Arguments add_highlight_annot {_} _ _ _.

(** ** Humanizer *)

Definition humanize_system_prompt : string :=
"
        You are an expert at rewriting text to make it sound naturally human-written.
        Your goal is to make the text undetectable by AI detection tools while preserving meaning.
        
        Techniques:
        1. Vary sentence structure and length
        2. Use natural, conversational transitions
        3. Include subtle imperfections that humans make
        4. Add personal touches or colloquialisms where appropriate
        5. Vary vocabulary and avoid repetitive patterns
        6. Use active and passive voice naturally
        
        Keep the core meaning intact while making it sound authentically human.
        ".

(** [LLMClient.humanize_text] *)
Definition humanize_text (client : LLMClient) (text : string) : string :=
  let system_prompt := humanize_system_prompt in
  let user_prompt := ("Humanize this text: " ++ text)%string in
  if openai_available client then
    match _call_openai client system_prompt user_prompt with
    | Some response => Py.strip response
    | None => _simple_humanize text
    end
  else _simple_humanize text.

(** [if self._seems_ai_generated(replacement_text):
       replacement_text = await self.llm_client.humanize_text(replacement_text)] *)
Definition maybe_humanize (client : LLMClient)
    (replacement_text : option string) : option string :=
  if _seems_ai_generated replacement_text then
    match replacement_text with
    | Some t => Some (humanize_text client t)
    | None => None
    end
  else replacement_text.

(** ** Edit applicator *)

Definition fallback_fonts : list string :=
  ["helv"; "times"; "cour"; "Helvetica"; "Times-Roman"].

Section Applicator.

Context {D : DocumentModel}.

(** The loop over [fallback_fonts]: the first font that works. *)
Fixpoint try_fallback_fonts (doc : Doc D) (page : nat) (point : float * float)
    (replacement_text : option string) (fontsize : float)
    (fonts : list string) : option (Doc D) :=
  match fonts with
  | [] => None
  | fallback_font :: rest =>
      match insert_text doc page point replacement_text fontsize
              (Some fallback_font) with
      | Some doc' => Some doc'
      | None =>
          try_fallback_fonts doc page point replacement_text fontsize rest
      end
  end.

(** The [try] / [except] chain around [page.insert_text]: the font of
    the block, then the fallback fonts, then size 12 without a font
    name; a failure of the last attempt propagates. *)
Definition insert_with_fallbacks (doc : Doc D) (page : nat)
    (point : float * float)
    (replacement_text : option string) (fontsize : float)
    (fontname : option string) : option (Doc D) :=
  match insert_text doc page point replacement_text fontsize fontname with
  | Some doc' => Some doc'
  | None =>
      match try_fallback_fonts doc page point replacement_text fontsize
              fallback_fonts with
      | Some doc' => Some doc'
      | None => insert_text doc page point replacement_text 12%float None
      end
  end.

(** [(rect.x0, rect.y0 + block.font_size * 0.8)] *)
Definition insertion_point_of (block : TextBlock) : float * float :=
  let '(x0, y0, _, _) := bbox block in
  (x0, y0 + font_size block * 0.8)%float.

(** The loop [for block in matching_blocks] of
    [_apply_text_replacement]. *)
Fixpoint replacement_loop (doc : Doc D) (replacement_text : option string)
    (matching_blocks : list TextBlock) : option (Doc D) :=
  match matching_blocks with
  | [] => Some doc
  | block :: rest =>
      let doc := draw_rect doc (page_num block) (bbox block) in
      match insert_with_fallbacks doc (page_num block)
              (insertion_point_of block) replacement_text
              (font_size block) (font_name block) with
      | Some doc => replacement_loop doc replacement_text rest
      | None => None
      end
  end.

(** [PDFEditor._apply_text_replacement] *)
Definition _apply_text_replacement (client : LLMClient) (doc : Doc D)
    (edit_request : EditRequest) (text_blocks : list TextBlock)
    : option (Doc D) :=
  let target_text := Py.strip (target_text edit_request) in
  let replacement_text := replacement_text edit_request in
  let replacement_text := maybe_humanize client replacement_text in
  let matching_blocks :=
    _find_matching_text_blocks target_text text_blocks
      (context edit_request) in
  replacement_loop doc replacement_text matching_blocks.

(** [PDFEditor._apply_highlight]; the matcher is called without a
    context. *)
Definition _apply_highlight (doc : Doc D) (edit_request : EditRequest)
    (text_blocks : list TextBlock) : option (Doc D) :=
  let target_text := Py.strip (target_text edit_request) in
  let matching_blocks :=
    _find_matching_text_blocks target_text text_blocks None in
  Some (fold_left
          (fun doc block =>
             add_highlight_annot doc (page_num block) (bbox block))
          matching_blocks doc).

(** The test of the loop that collects [potential_heading_blocks]. *)
Definition could_be_heading (block : TextBlock) : bool :=
  (List.length (Py.split (text block)) <? 15)%nat
  && PrimFloat.leb 11%float (font_size block)
  && negb (Py.any_char_in [","; ";"; ":"]%char (text block))
  && Qlt_bool (4 # 10)
       (ratio (Py.count_capitalized (Py.split (text block)))
              (Nat.max 1 (List.length (Py.split (text block))))).

Fixpoint potential_heading_loop (text_blocks : list TextBlock)
    (potential_heading_blocks : list TextBlock) : list TextBlock :=
  match text_blocks with
  | [] => potential_heading_blocks
  | block :: rest =>
      if could_be_heading block then
        potential_heading_loop rest (potential_heading_blocks ++ [block])
      else potential_heading_loop rest potential_heading_blocks
  end.

(** The value of [matching_blocks] in [_apply_heading_modification]
    when it is tested for the last time. *)
Definition heading_matching_blocks (target_text : string)
    (context : option string) (text_blocks : list TextBlock)
    : list TextBlock :=
  let heading_blocks := List.filter is_heading text_blocks in
  let matching_blocks :=
    _find_matching_text_blocks target_text heading_blocks context in
  let matching_blocks :=
    if is_empty matching_blocks then
      let potential_heading_blocks := potential_heading_loop text_blocks [] in
      _find_matching_text_blocks target_text potential_heading_blocks context
    else matching_blocks in
  let matching_blocks :=
    if is_empty matching_blocks then
      _find_matching_text_blocks target_text text_blocks context
    else matching_blocks in
  matching_blocks.

(** [block.font_name or "Helvetica"] *)
Definition font_name_or_helvetica (block : TextBlock) : string :=
  match font_name block with
  | Some n => if Py.truthy n then n else "Helvetica"
  | None => "Helvetica"
  end.

(** The loop [for block in matching_blocks] of
    [_apply_heading_modification]. *)
Fixpoint heading_loop (doc : Doc D) (replacement_text : option string)
    (matching_blocks : list TextBlock) : option (Doc D) :=
  match matching_blocks with
  | [] => Some doc
  | block :: rest =>
      let doc := draw_rect doc (page_num block) (bbox block) in
      let insertion_point := insertion_point_of block in
      let font_size := font_size block in
      let font_name := font_name_or_helvetica block in
      match insert_with_fallbacks doc (page_num block) insertion_point
              replacement_text font_size (Some font_name) with
      | Some doc => heading_loop doc replacement_text rest
      | None => None
      end
  end.

(** [PDFEditor._apply_heading_modification]: [Some doc'] is a normal
    return with the document in state [doc'], [None] is an exception. *)
Definition _apply_heading_modification (client : LLMClient) (doc : Doc D)
    (edit_request : EditRequest) (text_blocks : list TextBlock)
    : option (Doc D) :=
  let target_text := Py.strip (target_text edit_request) in
  let replacement_text := replacement_text edit_request in
  let context := context edit_request in
  let replacement_text := maybe_humanize client replacement_text in
  let matching_blocks :=
    heading_matching_blocks target_text context text_blocks in
  if is_empty matching_blocks then Some doc
  else heading_loop doc replacement_text matching_blocks.

(** The loop of [_apply_edits] over the requests; an action that is
    none of the three is skipped. *)
Fixpoint apply_requests (client : LLMClient) (doc : Doc D)
    (edit_requests : list EditRequest) (text_blocks : list TextBlock)
    : option (Doc D) :=
  match edit_requests with
  | [] => Some doc
  | edit_request :: rest =>
      let result :=
        if String.eqb (action edit_request) "replace" then
          _apply_text_replacement client doc edit_request text_blocks
        else if String.eqb (action edit_request) "highlight" then
          _apply_highlight doc edit_request text_blocks
        else if String.eqb (action edit_request) "modify_heading" then
          _apply_heading_modification client doc edit_request text_blocks
        else Some doc in
      match result with
      | Some doc => apply_requests client doc rest text_blocks
      | None => None
      end
  end.

End Applicator.

(** *** Heading resolution as the specification words it *)

(** The looser heading-like filter: fewer than 15 words, font size at
    least 11, none of [, ; :], more than 40% of the words capitalized. *)
Definition loose_heading_like (block : TextBlock) : bool :=
  let words := Py.split (text block) in
  (List.length words <? 15)%nat
  && PrimFloat.leb 11%float (font_size block)
  && negb (Py.contains_char "," (text block)
           || Py.contains_char ";" (text block)
           || Py.contains_char ":" (text block))
  && Qlt_bool (4 # 10)
       (ratio (Py.count_capitalized words) (Nat.max 1 (List.length words))).

Definition staged_heading_candidates (target_text : string)
    (context : option string) (text_blocks : list TextBlock)
    : list TextBlock :=
  let among_headings :=
    _find_matching_text_blocks target_text
      (List.filter is_heading text_blocks) context in
  let among_heading_like :=
    _find_matching_text_blocks target_text
      (List.filter loose_heading_like text_blocks) context in
  let among_all := _find_matching_text_blocks target_text text_blocks context in
  if negb (is_empty among_headings) then among_headings
  else if negb (is_empty among_heading_like) then among_heading_like
  else among_all.

(** *** A document that records what is done to it *)

Inductive DocOp : Type :=
| DrawRect (page : nat) (rect : BBox)
| InsertText (page : nat) (point : float * float) (text : string)
    (fontsize : float) (fontname : option string)
| Highlight (page : nat) (rect : BBox).

(** A document that knows the fonts in [known_fonts] and the default
    font, and refuses a text that is [None]. *)
Definition recording_document (known_fonts : list string) : DocumentModel :=
  {| Doc := list DocOp;
     draw_rect := fun doc page rect => doc ++ [DrawRect page rect];
     insert_text := fun doc page point text fontsize fontname =>
       match text with
       | None => None
       | Some t =>
           let known :=
             match fontname with
             | None => true
             | Some f => existsb (String.eqb f) known_fonts
             end in
           if known then Some (doc ++ [InsertText page point t fontsize fontname])
           else None
       end;
     add_highlight_annot := fun doc page rect => doc ++ [Highlight page rect] |}.

Definition no_llm : LLMClient :=
  {| openai_available := false; _call_openai := fun _ _ => None |}.

(** ** Regular expressions of the rule-based parser *)

(** The fragment of Python's [re] the parser uses, matched by
    backtracking in the order [re] tries the alternatives: the left
    branch of [|] first, a greedy quantifier longest first, a lazy one
    shortest first.  Literals are compared without regard to case as
    [re.IGNORECASE] compares characters below 128; in a text with other
    characters [re] also takes U+017F for s, U+0130 and U+0131 for i
    and U+212A for k.  Every quantifier of the parser's patterns other
    than [?] applies to a single character class, and no pattern
    matches the empty string. *)
Module Re.

Inductive CharSet : Type :=
| Space            (** [\s] *)
| Quote            (** a single or a double quote *)
| NotQuote         (** any character but the two quotes *)
| NotNewline.      (** [.] and [^\n] *)

Definition newline : ascii := "010"%char.

Definition is_quote (c : ascii) : bool :=
  Ascii.eqb c "'"%char || Ascii.eqb c dquote.

Definition in_set (cs : CharSet) (c : ascii) : bool :=
  match cs with
  | Space => Py.isspace c
  | Quote => is_quote c
  | NotQuote => negb (is_quote c)
  | NotNewline => negb (Ascii.eqb c newline)
  end.

Inductive Regex : Type :=
| Lit (s : string)                                 (** literal text *)
| One (cs : CharSet)                               (** one character *)
| Rep (cs : CharSet) (min : nat) (greedy : bool)   (** [*], [+], [*?], [+?] *)
| Opt (r : Regex)                                  (** [(?:r)?] *)
| Alt (r1 r2 : Regex)                              (** [r1|r2] *)
| Seq (r1 r2 : Regex)
| Group (n : nat) (r : Regex)                      (** capture group [n] *)
| Bol                                              (** [^] *)
| Eol.                                             (** [$] *)

(** The text of the groups that took part in a match, latest first. *)
Definition Groups : Type := list (nat * string).

(** What remains to be matched: called with the position reached, the
    text from there on and the groups; returns the groups and the end
    of the whole match. *)
Definition Cont : Type := nat -> string -> Groups -> option (Groups * nat).

Fixpoint match_lit (lit : string) (idx : nat) (rest : string)
    : option (nat * string) :=
  match lit with
  | EmptyString => Some (idx, rest)
  | String a lit' =>
      match rest with
      | EmptyString => None
      | String c rest' =>
          if Ascii.eqb (Py.lower_char a) (Py.lower_char c)
          then match_lit lit' (S idx) rest'
          else None
      end
  end.

Fixpoint rep_greedy (cs : CharSet) (min : nat) (idx : nat) (rest : string)
    (g : Groups) (k : Cont) : option (Groups * nat) :=
  let stop := match min with O => k idx rest g | S _ => None end in
  match rest with
  | EmptyString => stop
  | String c rest' =>
      if in_set cs c then
        match rep_greedy cs (Nat.pred min) (S idx) rest' g k with
        | Some m => Some m
        | None => stop
        end
      else stop
  end.

Fixpoint rep_lazy (cs : CharSet) (min : nat) (idx : nat) (rest : string)
    (g : Groups) (k : Cont) : option (Groups * nat) :=
  let more :=
    match rest with
    | EmptyString => None
    | String c rest' =>
        if in_set cs c then rep_lazy cs (Nat.pred min) (S idx) rest' g k
        else None
    end in
  match min with
  | O => match k idx rest g with
         | Some m => Some m
         | None => more
         end
  | S _ => more
  end.

Fixpoint run (r : Regex) (idx : nat) (rest : string) (g : Groups) (k : Cont)
    {struct r} : option (Groups * nat) :=
  match r with
  | Lit s =>
      match match_lit s idx rest with
      | Some (idx', rest') => k idx' rest' g
      | None => None
      end
  | One cs =>
      match rest with
      | EmptyString => None
      | String c rest' => if in_set cs c then k (S idx) rest' g else None
      end
  | Rep cs min greedy =>
      if greedy then rep_greedy cs min idx rest g k
      else rep_lazy cs min idx rest g k
  | Opt r1 =>
      match run r1 idx rest g k with
      | Some m => Some m
      | None => k idx rest g
      end
  | Alt r1 r2 =>
      match run r1 idx rest g k with
      | Some m => Some m
      | None => run r2 idx rest g k
      end
  | Seq r1 r2 => run r1 idx rest g (fun idx' rest' g' => run r2 idx' rest' g' k)
  | Group n r1 =>
      run r1 idx rest g
        (fun idx' rest' g' => k idx' rest' ((n, Py.take (idx' - idx) rest) :: g'))
  | Bol => if (idx =? 0)%nat then k idx rest g else None
  | Eol =>
      match rest with
      | EmptyString => k idx rest g
      | String c EmptyString => if Ascii.eqb c newline then k idx rest g else None
      | _ => None
      end
  end.

(** A match starting at position [idx]: the groups and the end. *)
Definition match_at (r : Regex) (idx : nat) (rest : string)
    : option (Groups * nat) :=
  run r idx rest [] (fun idx' _ g => Some (g, idx')).

(** [re.finditer]: the matches from left to right, each search starting
    where the previous match ended; [skip] counts the characters of
    the previous match still to be passed. *)
Fixpoint finditer_from (r : Regex) (skip idx : nat) (rest : string)
    : list Groups :=
  match rest with
  | EmptyString =>
      match skip with
      | O => match match_at r idx rest with
             | Some (g, _) => [g]
             | None => []
             end
      | S _ => []
      end
  | String _ rest' =>
      match skip with
      | S k => finditer_from r k (S idx) rest'
      | O =>
          match match_at r idx rest with
          | Some (g, e) => g :: finditer_from r (e - idx - 1) (S idx) rest'
          | None => finditer_from r 0 (S idx) rest'
          end
      end
  end.

Definition finditer (r : Regex) (s : string) : list Groups :=
  finditer_from r 0 0 s.

(** [match.group(n)] for a group that took part in the match. *)
Fixpoint group (n : nat) (g : Groups) : string :=
  match g with
  | [] => EmptyString
  | (m, s) :: g' => if (m =? n)%nat then s else group n g'
  end.

(** [len(match.groups())]: the number of groups of the pattern. *)
Fixpoint group_count (r : Regex) : nat :=
  match r with
  | Opt r1 => group_count r1
  | Alt r1 r2 | Seq r1 r2 => group_count r1 + group_count r2
  | Group _ r1 => S (group_count r1)
  | _ => 0
  end.

(** Concatenation of a list of expressions. *)
Definition seq (rs : list Regex) : Regex := fold_right Seq (Lit EmptyString) rs.

(** The pieces the patterns are made of. *)
Definition ws_plus : Regex := Rep Space 1 true.            (** [\s+] *)
Definition ws_star : Regex := Rep Space 0 true.            (** [\s*] *)
Definition quote : Regex := One Quote.                     (** a quote *)
Definition opt_quote : Regex := Opt (One Quote).           (** a quote, optional *)
Definition unquoted : Regex := Rep NotQuote 1 true.        (** non-quotes, [+] *)
Definition unquoted_lazy : Regex := Rep NotQuote 1 false.  (** non-quotes, [+?] *)
Definition opt_the : Regex := Opt (Lit "the").             (** [(?:the)?] *)

(** The right arrow U+2192 in UTF-8. *)
Definition arrow : string :=
  String "226"%char (String "134"%char (String "146"%char EmptyString)).

End Re.

(** ** Rule-based prompt parser *)

Import Re.

(** [replace_patterns], in the order of the source:
    - change, blanks, quoted target, [ to ], quoted replacement;
    - replace, blanks, quoted target, [ with ], quoted replacement;
    - [in the ], context, [, change ], quoted target, [ to ], quoted
      replacement;
    - change, blanks, optional [the], unquoted target, [to], unquoted
      replacement. *)
Definition replace_patterns : list Regex :=
  [ seq [Lit "change"; ws_plus; quote; Group 1 unquoted; quote; Lit " to ";
         quote; Group 2 unquoted; quote];
    seq [Lit "replace"; ws_plus; quote; Group 1 unquoted; quote; Lit " with ";
         quote; Group 2 unquoted; quote];
    seq [Lit "in the "; Group 1 (Rep NotNewline 1 false); Lit ", change ";
         quote; Group 2 unquoted; quote; Lit " to ";
         quote; Group 3 unquoted; quote];
    seq [Lit "change"; ws_plus; opt_the; ws_star; Group 1 unquoted_lazy;
         ws_plus; Lit "to"; ws_plus; Group 2 unquoted] ].

(** [highlight_patterns]: the verb, blanks, an optional quote, the
    phrase, an optional quote. *)
Definition highlight_pattern (verb : string) : Regex :=
  seq [Lit verb; ws_plus; opt_quote; Group 1 unquoted; opt_quote].

Definition highlight_patterns : list Regex :=
  [ highlight_pattern "highlight";
    highlight_pattern "mark";
    highlight_pattern "emphasize" ].

(** The three fully quoted heading patterns. *)
Definition quoted_heading_pattern (prefix : string) : Regex :=
  seq [Lit prefix; quote; Group 1 unquoted; quote; Lit " to ";
       quote; Group 2 unquoted; quote].

(** The tail shared by the flexible heading patterns: optional quote,
    lazy target, optional quote, blanks, the connective, blanks,
    optional quote, lazy replacement, optional quote. *)
Definition flexible_tail (connective : Regex) : list Regex :=
  [ opt_quote; Group 1 unquoted_lazy; opt_quote; ws_plus; connective; ws_plus;
    opt_quote; Group 2 unquoted_lazy; opt_quote ].

(** [change\s+(?:the)?\s*NOUN\s+(?:from)?\s*] followed by the tail. *)
Definition change_noun_pattern (noun : string) : Regex :=
  seq ([Lit "change"; ws_plus; opt_the; ws_star; Lit noun; ws_plus;
        Opt (Lit "from"); ws_star] ++ flexible_tail (Lit "to")).

(** [(?:replace|update|set)\s+(?:the)?\s*NOUN\s+(?:from|of)?\s*]
    followed by the tail. *)
Definition set_noun_pattern (noun : string) : Regex :=
  seq ([Alt (Lit "replace") (Alt (Lit "update") (Lit "set")); ws_plus;
        opt_the; ws_star; Lit noun; ws_plus;
        Opt (Alt (Lit "from") (Lit "of")); ws_star] ++ flexible_tail (Lit "to")).

(** [NOUN\s+(?:change|modification):\s*] followed by the tail with the
    connective [to], [into] or the arrow. *)
Definition noun_change_pattern (noun : string) : Regex :=
  seq ([Lit noun; ws_plus; Alt (Lit "change") (Lit "modification"); Lit ":";
        ws_star]
       ++ flexible_tail (Alt (Lit "to") (Alt (Lit "into") (Lit arrow)))).

(** [heading_patterns], in the order of the source. *)
Definition heading_patterns : list Regex :=
  [ quoted_heading_pattern "change the heading ";
    quoted_heading_pattern "modify heading ";
    quoted_heading_pattern "change the title ";
    change_noun_pattern "title";
    change_noun_pattern "heading";
    set_noun_pattern "title";
    set_noun_pattern "heading";
    seq ([Alt (Lit "make") (Lit "transform"); ws_plus; opt_the; ws_star;
          Lit "title"; ws_plus]
         ++ flexible_tail (Alt (Lit "into") (Lit "to")));
    noun_change_pattern "title";
    noun_change_pattern "heading";
    seq [Bol; Lit "change"; ws_plus; Lit "title"; ws_plus; Opt (Lit "from");
         ws_star; Group 1 (Rep NotNewline 1 false); ws_plus; Lit "to"; ws_plus;
         Group 2 (Rep NotNewline 1 false); Alt (One Space) Eol] ].

(** The requests one replace pattern adds. *)
Definition replace_edits (pattern : Regex) (prompt : string)
    : list EditRequest :=
  flat_map
    (fun m =>
       if (group_count pattern =? 2)%nat then
         [mkEditRequest "replace" (group 1 m) (Some (group 2 m)) None]
       else if (group_count pattern =? 3)%nat then
         [mkEditRequest "replace" (group 2 m) (Some (group 3 m))
            (Some (group 1 m))]
       else [])
    (finditer pattern prompt).

Definition highlight_edits (pattern : Regex) (prompt : string)
    : list EditRequest :=
  List.map (fun m => mkEditRequest "highlight" (group 1 m) None None)
           (finditer pattern prompt).

Definition heading_edits (pattern : Regex) (prompt : string)
    : list EditRequest :=
  List.map
    (fun m => mkEditRequest "modify_heading" (group 1 m) (Some (group 2 m)) None)
    (finditer pattern prompt).

(** [LLMClient._rule_based_parsing]: [edits] is extended pattern by
    pattern, family by family. *)
Definition _rule_based_parsing (prompt : string) : list EditRequest :=
  let edits := [] in
  let edits :=
    fold_left (fun edits pattern => edits ++ replace_edits pattern prompt)
              replace_patterns edits in
  let edits :=
    fold_left (fun edits pattern => edits ++ highlight_edits pattern prompt)
              highlight_patterns edits in
  let edits :=
    fold_left (fun edits pattern => edits ++ heading_edits pattern prompt)
              heading_patterns edits in
  edits.

(** ** JSON decoding *)

(** Python's [json.loads] with its default settings.  A decoded string
    is given in UTF-8; a number keeps its text.  The nesting depth of
    the input is assumed to stay below the recursion limit of the
    interpreter and an integer below its digit limit, so that the
    decoder fails on malformed input only. *)
Module Json.

Local Set Warnings "-register-all".

Inductive value : Type :=
| Null
| Bool (b : bool)
| Number (lexeme : string)
| Str (s : string)
| Array (items : list value)
| Object (members : list (string * value)).

Inductive result (A : Type) : Type :=
| Ok (a : A)
| Error          (** [JSONDecodeError] *)
| OutOfFuel.

Arguments Ok {A} a.
Arguments Error {A}.
Arguments OutOfFuel {A}.

Definition backslash : ascii := "092"%char.

(** The blanks of JSON: space, tab, line feed, carriage return. *)
Definition is_ws (c : ascii) : bool :=
  Ascii.eqb c " "%char || Ascii.eqb c "009"%char
  || Ascii.eqb c "010"%char || Ascii.eqb c "013"%char.

Fixpoint skip_ws (s : string) : string :=
  match s with
  | String c r => if is_ws c then skip_ws r else s
  | EmptyString => s
  end.

(** The text after the character [c] when [s] starts with [c]. *)
Definition after_char (c : ascii) (s : string) : option string :=
  match s with
  | String c' r => if Ascii.eqb c' c then Some r else None
  | EmptyString => None
  end.

Definition is_digit (c : ascii) : bool :=
  let n := N_of_ascii c in ((48 <=? n) && (n <=? 57))%N.

Definition hex_digit (c : ascii) : option N :=
  let n := N_of_ascii c in
  if ((48 <=? n) && (n <=? 57))%N then Some (n - 48)%N
  else if ((97 <=? n) && (n <=? 102))%N then Some (n - 87)%N
  else if ((65 <=? n) && (n <=? 70))%N then Some (n - 55)%N
  else None.

(** The four hexadecimal digits of a [\uXXXX] escape. *)
Definition hex4 (s : string) : option N :=
  match s with
  | String a (String b (String c (String d _))) =>
      match hex_digit a, hex_digit b, hex_digit c, hex_digit d with
      | Some x, Some y, Some z, Some w =>
          Some (((x * 16 + y) * 16 + z) * 16 + w)%N
      | _, _, _, _ => None
      end
  | _ => None
  end.

Definition byte (n : N) : string := String (ascii_of_N n) EmptyString.

(** UTF-8 encoding of a code point. *)
Definition utf8 (n : N) : string :=
  (if n <? 128 then byte n
   else if n <? 2048 then byte (192 + n / 64) ++ byte (128 + n mod 64)
   else if n <? 65536 then
     byte (224 + n / 4096) ++ byte (128 + (n / 64) mod 64)
     ++ byte (128 + n mod 64)
   else
     byte (240 + n / 262144) ++ byte (128 + (n / 4096) mod 64)
     ++ byte (128 + (n / 64) mod 64) ++ byte (128 + n mod 64))%N%string.

(** An escape sequence, [s] starting after the backslash: the decoded
    text and the number of characters of [s] the escape takes. *)
Definition escape (s : string) : option (string * nat) :=
  match s with
  | EmptyString => None
  | String e r =>
      if Ascii.eqb e dquote then Some (String dquote EmptyString, 1%nat)
      else if Ascii.eqb e backslash then Some (String backslash EmptyString, 1%nat)
      else if Ascii.eqb e "/"%char then Some ("/"%string, 1%nat)
      else if Ascii.eqb e "b"%char then Some (byte 8, 1%nat)
      else if Ascii.eqb e "f"%char then Some (byte 12, 1%nat)
      else if Ascii.eqb e "n"%char then Some (byte 10, 1%nat)
      else if Ascii.eqb e "r"%char then Some (byte 13, 1%nat)
      else if Ascii.eqb e "t"%char then Some (byte 9, 1%nat)
      else if Ascii.eqb e "u"%char then
        match hex4 r with
        | None => None
        | Some uni =>
            let after := Py.drop 4 r in
            if ((55296 <=? uni) && (uni <=? 56319))%N
               && Py.startswith after (String backslash "u") then
              match hex4 (Py.drop 2 after) with
              | None => None
              | Some uni2 =>
                  if ((56320 <=? uni2) && (uni2 <=? 57343))%N then
                    Some (utf8 (65536 + (uni - 55296) * 1024 + (uni2 - 56320))%N,
                          11%nat)
                  else Some (utf8 uni, 5%nat)
              end
            else Some (utf8 uni, 5%nat)
        end
      else None
  end.

(** The body of a string literal, [s] starting after the opening quote:
    the decoded text and what follows the closing quote.  [skip] counts
    the characters of an escape still to be passed. *)
Fixpoint scan_string (skip : nat) (acc : string) (s : string)
    : option (string * string) :=
  match s with
  | EmptyString => None
  | String c r =>
      match skip with
      | S k => scan_string k acc r
      | O =>
          if Ascii.eqb c dquote then Some (acc, r)
          else if Ascii.eqb c backslash then
            match escape r with
            | Some (decoded, n) => scan_string n (acc ++ decoded)%string r
            | None => None
            end
          else if (N_of_ascii c <? 32)%N then None
          else scan_string 0 (acc ++ String c EmptyString)%string r
      end
  end.

(** The longest run of digits at the start of [s], and the rest. *)
Fixpoint span_digits (s : string) : string * string :=
  match s with
  | String c r =>
      if is_digit c then
        let '(ds, rest) := span_digits r in (String c ds, rest)
      else (EmptyString, s)
  | EmptyString => (EmptyString, s)
  end.

(** The integer part: an optional minus sign, then a single 0 or a
    non-zero digit followed by digits. *)
Definition match_int (s : string) : option (string * string) :=
  let '(sign, s1) :=
    match after_char "-" s with
    | Some r => ("-"%string, r)
    | None => (EmptyString, s)
    end in
  match s1 with
  | String c r =>
      if Ascii.eqb c "0"%char then Some ((sign ++ "0")%string, r)
      else if is_digit c then
        let '(ds, rest) := span_digits s1 in Some ((sign ++ ds)%string, rest)
      else None
  | EmptyString => None
  end.

(** The fraction [(\.\d+)?] *)
Definition match_frac (s : string) : string * string :=
  match after_char "." s with
  | Some r =>
      match span_digits r with
      | (EmptyString, _) => (EmptyString, s)
      | (ds, rest) => (String "." ds, rest)
      end
  | None => (EmptyString, s)
  end.

(** The exponent [([eE][-+]?\d+)?] *)
Definition match_exp (s : string) : string * string :=
  match s with
  | String e r =>
      if Ascii.eqb e "e"%char || Ascii.eqb e "E"%char then
        let '(sign, r1) :=
          match r with
          | String c r' =>
              if Ascii.eqb c "-"%char || Ascii.eqb c "+"%char
              then (String c EmptyString, r')
              else (EmptyString, r)
          | EmptyString => (EmptyString, r)
          end in
        match span_digits r1 with
        | (EmptyString, _) => (EmptyString, s)
        | (ds, rest) => ((String e sign ++ ds)%string, rest)
        end
      else (EmptyString, s)
  | EmptyString => (EmptyString, s)
  end.

(** [NUMBER_RE.match]: the text of the number and the rest. *)
Definition match_number (s : string) : option (string * string) :=
  match match_int s with
  | None => None
  | Some (i, r1) =>
      let '(f, r2) := match_frac r1 in
      let '(e, r3) := match_exp r2 in
      Some ((i ++ f ++ e)%string, r3)
  end.

(** A literal or a number at the start of [s]. *)
Definition scan_atom (s : string) : result (value * string) :=
  if String.prefix "null" s then Ok (Null, Py.drop 4 s)
  else if String.prefix "true" s then Ok (Bool true, Py.drop 4 s)
  else if String.prefix "false" s then Ok (Bool false, Py.drop 5 s)
  else
    match match_number s with
    | Some (lexeme, rest) => Ok (Number lexeme, rest)
    | None =>
        if String.prefix "NaN" s then Ok (Number "NaN", Py.drop 3 s)
        else if String.prefix "Infinity" s then Ok (Number "Infinity", Py.drop 8 s)
        else if String.prefix "-Infinity" s then Ok (Number "-Infinity", Py.drop 9 s)
        else Error
    end.

(** What follows a value in an array or an object. *)
Inductive Next : Type :=
| Close (rest : string)   (** the closing bracket *)
| Comma (rest : string)   (** a comma *)
| Neither.

Definition next_after_value (close : ascii) (s : string) : Next :=
  match after_char close (skip_ws s) with
  | Some rest => Close rest
  | None =>
      match after_char "," (skip_ws s) with
      | Some rest => Comma (skip_ws rest)
      | None => Neither
      end
  end.

(** [scan_once], [JSONArray] and [JSONObject]. *)
Fixpoint scan_once (fuel : nat) (s : string) : result (value * string) :=
  match fuel with
  | O => OutOfFuel
  | S fuel =>
      match s with
      | EmptyString => Error
      | String c r =>
          if Ascii.eqb c dquote then
            match scan_string 0 EmptyString r with
            | Some (str, rest) => Ok (Str str, rest)
            | None => Error
            end
          else if Ascii.eqb c "{"%char then
            match after_char "}" (skip_ws r) with
            | Some rest => Ok (Object [], rest)
            | None => scan_members fuel (skip_ws r) []
            end
          else if Ascii.eqb c "["%char then
            match after_char "]" (skip_ws r) with
            | Some rest => Ok (Array [], rest)
            | None => scan_elements fuel (skip_ws r) []
            end
          else scan_atom s
      end
  end

with scan_elements (fuel : nat) (s : string) (values : list value)
    : result (value * string) :=
  match fuel with
  | O => OutOfFuel
  | S fuel =>
      match scan_once fuel s with
      | Ok (v, rest) =>
          match next_after_value "]" rest with
          | Close rest' => Ok (Array (values ++ [v]), rest')
          | Comma rest' => scan_elements fuel rest' (values ++ [v])
          | Neither => Error
          end
      | Error => Error
      | OutOfFuel => OutOfFuel
      end
  end

with scan_members (fuel : nat) (s : string) (pairs : list (string * value))
    : result (value * string) :=
  match fuel with
  | O => OutOfFuel
  | S fuel =>
      match after_char dquote s with
      | None => Error
      | Some r =>
          match scan_string 0 EmptyString r with
          | None => Error
          | Some (key, rest) =>
              match after_char ":" (skip_ws rest) with
              | None => Error
              | Some rest1 =>
                  match scan_once fuel (skip_ws rest1) with
                  | Ok (v, rest2) =>
                      match next_after_value "}" rest2 with
                      | Close rest3 => Ok (Object (pairs ++ [(key, v)]), rest3)
                      | Comma rest3 =>
                          scan_members fuel rest3 (pairs ++ [(key, v)])
                      | Neither => Error
                      end
                  | Error => Error
                  | OutOfFuel => OutOfFuel
                  end
              end
          end
      end
  end.

(** [JSONDecoder.decode]: one value, blanks around it, nothing else. *)
Definition decode (s : string) : result value :=
  match scan_once (2 * String.length s + 1) (skip_ws s) with
  | Ok (v, rest) =>
      match skip_ws rest with
      | EmptyString => Ok v
      | _ => Error
      end
  | Error => Error
  | OutOfFuel => OutOfFuel
  end.

(** [json.loads]: [None] when the call raises. *)
Definition loads (s : string) : option value :=
  match decode s with
  | Ok v => Some v
  | _ => None
  end.

(** [key in d] and [d.get(key)] for a decoded object: of two members
    with one key the later one counts. *)
Definition has_key (key : string) (members : list (string * value)) : bool :=
  existsb (fun kv => String.eqb (fst kv) key) members.

Fixpoint get (key : string) (members : list (string * value)) : option value :=
  match members with
  | [] => None
  | (k, v) :: rest =>
      match get key rest with
      | Some v' => Some v'
      | None => if String.eqb k key then Some v else None
      end
  end.

(** The keys of a decoded object, in the order of first occurrence. *)
Fixpoint keys (members : list (string * value)) (seen : list string)
    : list string :=
  match members with
  | [] => []
  | (k, _) :: rest =>
      if existsb (String.eqb k) seen then keys rest seen
      else k :: keys rest (k :: seen)
  end.

(** The one-character strings of a string. *)
Fixpoint chars (s : string) : list string :=
  match s with
  | EmptyString => []
  | String c r => String c EmptyString :: chars r
  end.

(** [iter(v)]: the items a [for] loop over [v] visits; [None] when [v]
    is not iterable ([TypeError]). *)
Definition iterate (v : value) : option (list value) :=
  match v with
  | Array items => Some items
  | Object members => Some (List.map Str (keys members []))
  | Str s => Some (List.map Str (chars s))
  | Null | Bool _ | Number _ => None
  end.

End Json.

(** What a scan returns when its fuel suffices: a value and a strictly
    shorter rest, or an error. *)
Definition consumes (s : string) (r : Json.result (Json.value * string)) : Prop :=
  match r with
  | Json.Ok (_, rest) => (String.length rest < String.length s)%nat
  | Json.Error => True
  | Json.OutOfFuel => False
  end.

(** ** Parsing the answer of the language model *)

(** A decoded value as a field annotated [str]. *)
Definition str_field (v : option Json.value) : option string :=
  match v with
  | Some (Json.Str s) => Some s
  | _ => None
  end.

(** A decoded value as a field annotated [Optional[str]]: a missing key
    and [null] are [None]. *)
Definition optional_str_field (v : option Json.value)
    : option (option string) :=
  match v with
  | None | Some Json.Null => Some None
  | Some (Json.Str s) => Some (Some s)
  | Some _ => None
  end.

(** The request built from a decoded object that has the keys [action]
    and [target_text]; [None] when a value does not have the type its
    field is annotated with. *)
Definition request_of_members (members : list (string * Json.value))
    : option EditRequest :=
  match str_field (Json.get "action" members),
        str_field (Json.get "target_text" members),
        optional_str_field (Json.get "replacement_text" members),
        optional_str_field (Json.get "context" members) with
  | Some a, Some t, Some r, Some c => Some (mkEditRequest a t r c)
  | _, _, _, _ => None
  end.

(** The loop [for item in edit_data]: an item that is not an object
    with both keys is passed over.  The result is [None] when a request
    would hold a value outside the annotated types of [EditRequest];
    such answers are outside this model. *)
Fixpoint edits_loop (items : list Json.value) (edits : list EditRequest)
    : option (list EditRequest) :=
  match items with
  | [] => Some edits
  | item :: rest =>
      match item with
      | Json.Object members =>
          if Json.has_key "action" members
             && Json.has_key "target_text" members then
            match request_of_members members with
            | Some request => edits_loop rest (edits ++ [request])
            | None => None
            end
          else edits_loop rest edits
      | _ => edits_loop rest edits
      end
  end.

(** The cleaning of the answer: the text between a leading [```json]
    and a trailing [```], trimmed. *)
Definition clean_response (response : string) : string :=
  let cleaned_response := Py.strip response in
  let cleaned_response :=
    if Py.startswith cleaned_response "```json"
    then Py.drop 7 cleaned_response else cleaned_response in
  let cleaned_response :=
    if Py.endswith cleaned_response "```"
    then Py.drop_last 3 cleaned_response else cleaned_response in
  Py.strip cleaned_response.

(** [LLMClient._parse_edit_response]: every exception raised in the
    [try] block ends in the rule-based parser run on [response]. *)
Definition _parse_edit_response (response : string)
    : option (list EditRequest) :=
  let cleaned_response := clean_response response in
  match Json.loads cleaned_response with
  | None => Some (_rule_based_parsing response)
  | Some edit_data =>
      match Json.iterate edit_data with
      | None => Some (_rule_based_parsing response)
      | Some items => edits_loop items []
      end
  end.

(** The double quote as a string, and a text between double quotes. *)
Definition dq : string := String dquote EmptyString.

Definition quoted (s : string) : string := (dq ++ s ++ dq)%string.

From Stdlib Require Import Sorted.

(** ** Auxiliary notions for the further properties *)

(** The texts of a list of blocks, each followed by one blank: what the
    extraction appends to [full_text]. *)
Definition spaced_texts (blocks : list TextBlock) : string :=
  fold_right (fun b acc => (text b ++ " " ++ acc)%string) EmptyString blocks.

(** A text that starts with a character that is not a blank. *)
Definition head_not_blank (s : string) : Prop :=
  match s with
  | EmptyString => False
  | String c _ => Py.isspace c = false
  end.

(** *** Static facts about a regular expression *)

(** The least number of characters a match of [r] takes. *)
Fixpoint min_len (r : Re.Regex) : nat :=
  match r with
  | Re.Lit s => String.length s
  | Re.One _ => 1
  | Re.Rep _ min _ => min
  | Re.Opt _ => 0
  | Re.Alt r1 r2 => Nat.min (min_len r1) (min_len r2)
  | Re.Seq r1 r2 => min_len r1 + min_len r2
  | Re.Group _ r1 => min_len r1
  | Re.Bol | Re.Eol => 0
  end.

(** The literal texts every match of [r] goes through. *)
Fixpoint mentions (r : Re.Regex) : list string :=
  match r with
  | Re.Lit s => [s]
  | Re.Seq r1 r2 => mentions r1 ++ mentions r2
  | Re.Group _ r1 => mentions r1
  | _ => []
  end.

(** The groups every match of [r] sets. *)
Fixpoint sets_groups (r : Re.Regex) : list nat :=
  match r with
  | Re.Seq r1 r2 => sets_groups r1 ++ sets_groups r2
  | Re.Group n r1 => n :: sets_groups r1
  | _ => []
  end.

(** No group of [r] can capture the empty text. *)
Fixpoint groups_not_empty (r : Re.Regex) : bool :=
  match r with
  | Re.Group _ r1 => (1 <=? min_len r1)%nat && groups_not_empty r1
  | Re.Opt r1 => groups_not_empty r1
  | Re.Alt r1 r2 | Re.Seq r1 r2 => groups_not_empty r1 && groups_not_empty r2
  | _ => true
  end.

(** [w] occurs in [s], case apart. *)
Definition occurs_ci (w s : string) : Prop :=
  Py.contains (Py.lower w) (Py.lower s) = true.

(** Group [n] took part in the match. *)
Definition has_group (n : nat) (g : Re.Groups) : Prop :=
  exists s, In (n, s) g.

Definition all_not_empty (g : Re.Groups) : Prop :=
  forall n s, In (n, s) g -> s <> EmptyString.

(** What the groups and the text of a match of [r] in [s] satisfy. *)
Definition match_facts (r : Re.Regex) (s : string) (g : Re.Groups) : Prop :=
  (forall n, In n (sets_groups r) -> has_group n g)
  /\ (groups_not_empty r = true -> all_not_empty g)
  /\ (forall w, In w (mentions r) -> occurs_ci w s).

(** The words one of which every pattern of the parser needs. *)
Definition parser_keywords : list string :=
  ["change"; "replace"; "highlight"; "mark"; "emphasize"; "title"; "heading"].

(** [str.isascii]: every character is below 128. *)
Definition isascii (s : string) : bool :=
  forallb (fun c => (N_of_ascii c <? 128)%N) (list_ascii_of_string s).

(** A pattern mentions a literal that contains one of the keywords. *)
Definition needs_keyword (r : Re.Regex) : bool :=
  existsb
    (fun w => existsb (fun kw => Py.contains kw (Py.lower w)) parser_keywords)
    (mentions r).

(** A pattern sets the groups the parser reads from its matches and
    none of its groups can be empty. *)
Definition reads_set_groups (groups : list nat) (r : Re.Regex) : bool :=
  groups_not_empty r
  && forallb (fun n => existsb (Nat.eqb n) (sets_groups r)) groups.

Definition replace_pattern_ok (r : Re.Regex) : bool :=
  if (Re.group_count r =? 2)%nat then reads_set_groups [1; 2]%nat r
  else if (Re.group_count r =? 3)%nat then reads_set_groups [1; 2; 3]%nat r
  else true.

(** * Properties *)

(** ** The matcher loops as filters *)

Lemma exact_loop_filter tl blocks acc :
  exact_loop tl blocks acc = acc ++ List.filter (exact_pred tl) blocks.
Proof.
  revert acc. induction blocks as [|b rest IH]; intros acc; simpl.
  - now rewrite app_nil_r.
  - unfold exact_pred at 1.
    destruct (String.eqb tl (Py.lower (text b))); simpl.
    + rewrite IH, <- app_assoc. reflexivity.
    + destruct (Py.contains tl (Py.lower (text b))).
      * rewrite IH, <- app_assoc. reflexivity.
      * apply IH.
Qed.

Lemma fuzzy_loop_filter target ctx blocks acc :
  fuzzy_loop target ctx blocks acc
  = acc ++ List.filter (fuzzy_pred target ctx) blocks.
Proof.
  revert acc. induction blocks as [|b rest IH]; intros acc; simpl.
  - now rewrite app_nil_r.
  - unfold fuzzy_pred at 1.
    destruct (_fuzzy_match target (text b) ctx).
    + rewrite IH, <- app_assoc. reflexivity.
    + apply IH.
Qed.

Lemma partial_loop_filter words blocks acc :
  partial_loop words blocks acc
  = acc ++ List.filter (partial_pred words) blocks.
Proof.
  revert acc. induction blocks as [|b rest IH]; intros acc; simpl.
  - now rewrite app_nil_r.
  - unfold partial_pred at 1.
    destruct (overlap_enough words (Py.split (Py.lower (text b)))).
    + rewrite IH, <- app_assoc. reflexivity.
    + apply IH.
Qed.

Lemma filter_bool_sublist {A} (f : A -> bool) (l : list A) :
  sublist (List.filter f l) l.
Proof.
  induction l as [|x l IH]; simpl.
  - constructor.
  - destruct (f x); now constructor.
Qed.

Lemma is_empty_true {A} (l : list A) : is_empty l = true -> l = [].
Proof. destruct l; [reflexivity | discriminate]. Qed.

(** The result of the matcher in terms of the three filters. *)
Lemma find_matching_filters
    (target_text : string) (text_blocks : list TextBlock)
    (context : option string) :
  _find_matching_text_blocks target_text text_blocks context =
    let exact := List.filter (exact_pred (Py.lower target_text)) text_blocks in
    let fuzzy := List.filter (fuzzy_pred target_text context) text_blocks in
    let partial :=
      List.filter (partial_pred (Py.split (Py.lower target_text))) text_blocks in
    if negb (is_empty exact) then exact
    else if Py.truthy_opt context && negb (is_empty fuzzy) then fuzzy
    else partial.
Proof.
  unfold _find_matching_text_blocks.
  rewrite exact_loop_filter. cbn [app].
  destruct (List.filter (exact_pred (Py.lower target_text)) text_blocks)
    as [|b1 m1]; cbn [is_empty negb andb]; [|reflexivity].
  destruct (Py.truthy_opt context); cbn [andb].
  - rewrite fuzzy_loop_filter. cbn [app].
    destruct (List.filter (fuzzy_pred target_text context) text_blocks)
      as [|b2 m2]; cbn [is_empty negb].
    + rewrite partial_loop_filter. reflexivity.
    + reflexivity.
  - rewrite partial_loop_filter. reflexivity.
Qed.

(** ** Properties of the matcher *)

(** C1. The matcher is a staged fallback: its result is the result of
    stage 1 (exact or substring) when that is non-empty; otherwise the
    result of stage 2 (fuzzy match with context) when a context is given
    and that stage finds something; otherwise the result of stage 3
    (word overlap).  A later stage never adds to the result of an
    earlier one. *)
Theorem find_matching_staged_fallback
    (target_text : string) (text_blocks : list TextBlock)
    (context : option string) :
  _find_matching_text_blocks target_text text_blocks context =
    if negb (is_empty (stage1 target_text text_blocks)) then
      stage1 target_text text_blocks
    else if Py.truthy_opt context
            && negb (is_empty (stage2 target_text text_blocks context)) then
      stage2 target_text text_blocks context
    else stage3 target_text text_blocks.
Proof.
  unfold stage1, stage2, stage3.
  rewrite exact_loop_filter, fuzzy_loop_filter, partial_loop_filter.
  apply find_matching_filters.
Qed.

(** A scenario in which stage 1 and stage 3 disagree: the second block
    shares both words with the target but does not contain it. *)
Example stage1_hides_stage3 :
  let blocks := [plain_block "the quick fox"; plain_block "fox quick"] in
  stage1 "quick fox" blocks = [plain_block "the quick fox"]
  /\ stage3 "quick fox" blocks = blocks
  /\ _find_matching_text_blocks "quick fox" blocks None
     = [plain_block "the quick fox"].
Proof. vm_compute. repeat split. Qed.

(** The documented stage-3 example: two of the three target words occur
    in the block. *)
Example word_overlap_two_of_three :
  _find_matching_text_blocks "the quick fox"
    [plain_block "a quick brown fox jumps"] None
  = [plain_block "a quick brown fox jumps"].
Proof. vm_compute. reflexivity. Qed.

(** With no word in the target the threshold [len(words) * 0.6] is 0 and
    every block passes the overlap test. *)
Lemma partial_pred_no_words (block : TextBlock) : partial_pred [] block = true.
Proof. reflexivity. Qed.

Lemma stage3_no_words (target_text : string) (text_blocks : list TextBlock) :
  Py.split (Py.lower target_text) = [] ->
  stage3 target_text text_blocks = text_blocks.
Proof.
  intros Hw. unfold stage3. rewrite Hw, partial_loop_filter. simpl.
  induction text_blocks as [|b l IH]; simpl; [reflexivity|].
  now rewrite IH.
Qed.

(** C2. A target made of one blank has no word; with one-word blocks it
    is found by stage 1 in none of them and reaches stage 3, which
    returns every block of the list instead of none. *)
Theorem zero_word_target_matches_every_block :
  let blocks := [plain_block "hello"; plain_block "Summary"] in
  Py.split (Py.lower " ") = []
  /\ stage1 " " blocks = []
  /\ stage3 " " blocks = blocks
  /\ _find_matching_text_blocks " " blocks None = blocks.
Proof. vm_compute. repeat split. Qed.

(** C10. The result of the matcher is a selection from its input: it is
    the input list filtered by one predicate on blocks, hence a sublist
    of it (every returned block comes from the input, no position of
    the input is returned twice, the order is the input's). *)
Theorem find_matching_is_selection
    (target_text : string) (text_blocks : list TextBlock)
    (context : option string) :
  sublist (_find_matching_text_blocks target_text text_blocks context)
          text_blocks
  /\ exists keep : TextBlock -> bool,
       _find_matching_text_blocks target_text text_blocks context
       = List.filter keep text_blocks.
Proof.
  assert (H : exists keep : TextBlock -> bool,
             _find_matching_text_blocks target_text text_blocks context
             = List.filter keep text_blocks).
  { rewrite find_matching_filters. cbv zeta.
    destruct (negb (is_empty (List.filter _ text_blocks))); [eauto|].
    destruct (Py.truthy_opt context && _); eauto. }
  split; [|exact H].
  destruct H as [keep ->]. apply filter_bool_sublist.
Qed.

(** ** The fuzzy-match predicate on the documented example *)

(** C5. On target "AI" and the text "Artificial Intelligence is
    growing" with no context the substring rule does not fire: "ai" does
    not occur in the lowercased text.  The target shares no word with
    the text, exactly half of the words of the text are capitalized, so
    the text is not heading-like, and the predicate returns false. *)
Theorem fuzzy_AI_not_decided_by_substring :
  Py.contains (Py.lower "AI") (Py.lower ai_example_text) = false
  /\ Py.set_inter_size (Py.split (Py.lower "AI"))
                       (Py.split (Py.lower ai_example_text)) = 0%nat
  /\ Py.count_capitalized (Py.split ai_example_text) = 2%nat
  /\ List.length (Py.split ai_example_text) = 4%nat
  /\ _fuzzy_match "AI" ai_example_text None = false.
Proof. vm_compute. repeat split. Qed.

(** The claim as stated (substring found, result true) fails. *)
Lemma fuzzy_AI_substring_rule_fails :
  ~ (Py.contains (Py.lower "AI")
       (Py.lower "Artificial Intelligence is growing") = true
     /\ _fuzzy_match "AI" "Artificial Intelligence is growing" None = true).
Proof. vm_compute. intros [H _]. discriminate H. Qed.

(** ** Properties of the AI-text heuristic and the humanizer *)

Lemma count_fold_filter {A} (f : A -> bool) (l : list A) (n : nat) :
  fold_left (fun acc x => if f x then (acc + 1)%nat else acc) l n
  = (n + List.length (List.filter f l))%nat.
Proof.
  revert n. induction l as [|x l IH]; intros n; simpl.
  - lia.
  - rewrite IH. destruct (f x); simpl; lia.
Qed.

Lemma ai_score_indicator_count (text : string) :
  ai_score_of (Py.lower text) = indicator_count text.
Proof. unfold ai_score_of, indicator_count. now rewrite count_fold_filter. Qed.

(** C7. [_seems_ai_generated] is true exactly when at least two of the
    eleven indicator phrases occur in the lowercased text, or the text
    has more than ten words and at least one phrase occurs. *)
Theorem seems_ai_generated_spec (text : string) :
  List.length ai_indicators = 11%nat
  /\ _seems_ai_generated (Some text)
     = ((2 <=? indicator_count text)%nat
        || ((10 <? List.length (Py.split text))%nat
            && (1 <=? indicator_count text)%nat)).
Proof.
  split; [reflexivity|].
  unfold _seems_ai_generated.
  destruct text as [|c r]; [reflexivity|].
  cbn [Py.truthy negb].
  now rewrite ai_score_indicator_count.
Qed.

Example seems_ai_generated_documented :
  indicator_count
    "This demonstrates significant impact and high levels of efficiency"
  = 3%nat
  /\ _seems_ai_generated
       (Some "This demonstrates significant impact and high levels of efficiency")
     = true.
Proof. vm_compute. split; reflexivity. Qed.

(** C8. The fallback humanizer turns "The system utilizes furthermore
    optimized methods" into "This system uses also optimized methods":
    "utilize" inside "utilizes" becomes "use", "furthermore" becomes
    "also" and the leading "The system" becomes "This system". *)
Theorem simple_humanize_documented :
  _simple_humanize "The system utilizes furthermore optimized methods"
  = "This system uses also optimized methods"
  /\ Py.startswith
       (_simple_humanize "The system utilizes furthermore optimized methods")
       "This system" = true
  /\ Py.replace "utilizes" "utilize" "use" = "uses"
  /\ Py.replace "furthermore" "furthermore" "also" = "also".
Proof. vm_compute. repeat split. Qed.

(** The replacement is not aware of word boundaries. *)
Example simple_humanize_inside_token :
  _simple_humanize "xfurthermorey" = "xalsoy".
Proof. reflexivity. Qed.

(** ** The extraction loops as maps *)

Lemma fold_append_map {A B} (f : A -> B) (l : list A) (acc : list B) :
  fold_left (fun acc x => acc ++ [f x]) l acc = acc ++ List.map f l.
Proof.
  revert acc. induction l as [|x l IH]; intros acc; simpl.
  - now rewrite app_nil_r.
  - now rewrite IH, <- app_assoc.
Qed.

Lemma fold_lines_sizes (lines : list Line) (acc : list float) :
  fold_left
    (fun font_sizes line =>
       fold_left (fun font_sizes span => font_sizes ++ [span_size span])
                 line font_sizes)
    lines acc
  = acc ++ List.map span_size (List.concat lines).
Proof.
  revert acc. induction lines as [|line lines IH]; intros acc; simpl.
  - now rewrite app_nil_r.
  - rewrite IH, fold_append_map, List.map_app, app_assoc. reflexivity.
Qed.

Lemma fold_blocks_sizes (blocks : PageDict) (acc : list float) :
  fold_left
    (fun font_sizes block =>
       match block with
       | ImageBlock => font_sizes
       | TextLines lines =>
           fold_left
             (fun font_sizes line =>
                fold_left (fun font_sizes span => font_sizes ++ [span_size span])
                          line font_sizes)
             lines font_sizes
       end)
    blocks acc
  = acc ++ List.map span_size (page_spans blocks).
Proof.
  revert acc. induction blocks as [|b blocks IH]; intros acc; simpl.
  - now rewrite app_nil_r.
  - rewrite IH. destruct b as [|lines]; simpl; [reflexivity|].
    rewrite fold_lines_sizes, List.map_app, app_assoc. reflexivity.
Qed.

(** The average the extraction uses is the average over the page. *)
Lemma calculate_average_is_page_average (py : Interpreter)
    (blocks : PageDict) :
  _calculate_average_font_size py blocks = page_average py blocks.
Proof.
  unfold _calculate_average_font_size, page_average.
  now rewrite fold_blocks_sizes.
Qed.

Lemma extract_span_fst (py : Interpreter) (blocks : PageDict)
    (page_num : nat) (st : ExtractState) (span : Span) :
  fst (extract_span py blocks page_num st span)
  = fst st ++
    List.map (classified_block (page_average py blocks) page_num)
             (List.filter keeps_span [span]).
Proof.
  destruct st as [tbs ft]. unfold extract_span. simpl.
  unfold keeps_span.
  destruct (Py.truthy (Py.strip (span_text span))); simpl.
  - f_equal. f_equal. rewrite calculate_average_is_page_average.
    unfold classified_block, new_TextBlock, set_is_heading_true.
    destruct (PrimFloat.ltb _ _); simpl.
    + now rewrite orb_true_r.
    + now rewrite orb_false_r.
  - now rewrite app_nil_r.
Qed.

Lemma extract_line_fst (py : Interpreter) (blocks : PageDict)
    (page_num : nat) (line : Line) (st : ExtractState) :
  fst (extract_line py blocks page_num st line)
  = fst st ++
    List.map (classified_block (page_average py blocks) page_num)
             (List.filter keeps_span line).
Proof.
  unfold extract_line. revert st.
  induction line as [|span line IH]; intros st.
  - simpl. now rewrite app_nil_r.
  - cbn [fold_left]. rewrite IH, extract_span_fst, <- app_assoc.
    f_equal. simpl. destruct (keeps_span span); reflexivity.
Qed.

Lemma extract_lines_fst (py : Interpreter) (blocks : PageDict)
    (page_num : nat) (lines : list Line) (st : ExtractState) :
  fst (fold_left (extract_line py blocks page_num) lines st)
  = fst st ++
    List.map (classified_block (page_average py blocks) page_num)
             (List.filter keeps_span (List.concat lines)).
Proof.
  revert st. induction lines as [|line lines IH]; intros st.
  - simpl. now rewrite app_nil_r.
  - cbn [fold_left List.concat].
    rewrite IH, extract_line_fst, <- app_assoc, List.filter_app, List.map_app.
    reflexivity.
Qed.

Lemma extract_blocks_fst (py : Interpreter) (page : PageDict)
    (page_num : nat) (blocks : list Block) (st : ExtractState) :
  fst (fold_left (extract_block py page page_num) blocks st)
  = fst st ++
    List.map (classified_block (page_average py page) page_num)
             (List.filter keeps_span (page_spans blocks)).
Proof.
  revert st. induction blocks as [|b blocks IH]; intros st.
  - simpl. now rewrite app_nil_r.
  - cbn [fold_left]. rewrite IH. unfold page_spans. cbn [flat_map].
    rewrite List.filter_app, List.map_app, app_assoc. f_equal.
    destruct b as [|lines]; simpl.
    + now rewrite app_nil_r.
    + apply extract_lines_fst.
Qed.

Lemma extract_pages_fst (py : Interpreter) (pages : list (nat * PageDict))
    (st : ExtractState) :
  fst (fold_left (extract_page py) pages st)
  = fst st ++ flat_map (page_text_blocks py) pages.
Proof.
  revert st. induction pages as [|[pn page] pages IH]; intros st.
  - simpl. now rewrite app_nil_r.
  - cbn [fold_left flat_map]. rewrite IH, app_assoc. f_equal.
    unfold extract_page. apply extract_blocks_fst.
Qed.

Lemma extract_text_blocks_by_page (py : Interpreter) (doc : Document) :
  fst (extract_text_blocks py doc)
  = flat_map (page_text_blocks py) (enumerate doc).
Proof.
  unfold extract_text_blocks.
  pose proof (extract_pages_fst py (enumerate doc) ([], EmptyString)) as H.
  destruct (fold_left (extract_page py) (enumerate doc) ([], EmptyString))
    as [tbs ft].
  simpl in *. exact H.
Qed.

(** ** Properties of the extraction *)

(** C3. For every document and either way the interpreter sums, the
    extracted blocks are, page by page and in reading order, the spans
    with non-blank text, each classified as a heading exactly when the
    text rules say so or its font size exceeds, in binary64 arithmetic,
    1.2 times the average font size of all spans of its page: the sum
    of the sizes as [sum] rounds it, divided by their number (12 when
    the page has no span). *)
Theorem font_upgrade_uses_page_average (py : Interpreter) (doc : Document) :
  fst (extract_text_blocks py doc)
  = flat_map
      (fun p : nat * PageDict =>
         let sizes := List.map span_size (page_spans (snd p)) in
         let average :=
           match sizes with
           | [] => 12%float
           | _ => (py_sum py sizes / float_of_len (List.length sizes))%float
           end in
         List.map
           (fun span =>
              mkTextBlock (Py.strip (span_text span)) (span_bbox span) (fst p)
                (span_size span) (Some (span_font span))
                (_is_heading (Py.strip (span_text span))
                 || PrimFloat.ltb (average * 1.2)%float (span_size span)))
           (List.filter keeps_span (page_spans (snd p))))
      (enumerate doc).
Proof. exact (extract_text_blocks_by_page py doc). Qed.

(** On that page the 14 pt span is not a heading by the text rules and
    does not exceed 1.2 times the average of its own block (14), yet the
    extraction flags it: it exceeds 1.2 times the page average (11).
    All the sums are exact, so both interpreters agree. *)
Lemma font_upgrade_not_block_scoped :
  (List.map is_heading (fst (extract_text_blocks AddsLeftToRight two_block_doc))
   = [true; false; false; false]
   /\ List.map is_heading
        (fst (extract_text_blocks AddsCompensated two_block_doc))
      = [true; false; false; false])
  /\ _is_heading "see the notes, then continue" = false
  /\ (block_average AddsLeftToRight large_block = 14%float
      /\ block_average AddsCompensated large_block = 14%float
      /\ PrimFloat.ltb (14 * 1.2)%float 14%float = false)
  /\ (page_average AddsLeftToRight [large_block; body_block] = 11%float
      /\ page_average AddsCompensated [large_block; body_block] = 11%float
      /\ PrimFloat.ltb (11 * 1.2)%float 14%float = true).
Proof. vm_compute. repeat split. Qed.

(** The rounding of the average decides the flag: on a page with spans
    of 14, 14 and 7 pt the average is 11.666666666666666, 1.2 times it
    is 13.999999999999998, and both 14 pt spans are flagged although
    the exact average times 1.2 is 14. *)
Example font_upgrade_rounds_the_average :
  let page := [TextLines [[mkSpan "one line, not a heading" zero_bbox 14 "Times";
                           mkSpan "another line, not a heading" zero_bbox 14 "Times";
                           mkSpan "a third line, in small print" zero_bbox 7 "Times"]]] in
  page_average AddsLeftToRight page = 11.666666666666666%float
  /\ page_average AddsCompensated page = 11.666666666666666%float
  /\ (11.666666666666666 * 1.2 = 13.999999999999998)%float
  /\ List.map is_heading (fst (extract_text_blocks AddsLeftToRight [page]))
     = [true; true; false]
  /\ List.map is_heading (fst (extract_text_blocks AddsCompensated [page]))
     = [true; true; false].
Proof. vm_compute. repeat split. Qed.

(** The two ways of summing differ: ten spans of 0.1 pt sum to
    0.9999999999999999 from left to right and to 1 with the
    compensation. *)
Example sums_differ :
  py_sum AddsLeftToRight (List.repeat 0.1%float 10) = 0.9999999999999999%float
  /\ py_sum AddsCompensated (List.repeat 0.1%float 10) = 1%float.
Proof. vm_compute. split; reflexivity. Qed.

(** ** The heading resolution by stage *)

Lemma potential_heading_loop_filter (text_blocks acc : list TextBlock) :
  potential_heading_loop text_blocks acc
  = acc ++ List.filter could_be_heading text_blocks.
Proof.
  revert acc. induction text_blocks as [|b l IH]; intros acc; simpl.
  - now rewrite app_nil_r.
  - destruct (could_be_heading b).
    + rewrite IH, <- app_assoc. reflexivity.
    + apply IH.
Qed.

Lemma could_be_heading_loose (block : TextBlock) :
  could_be_heading block = loose_heading_like block.
Proof.
  unfold could_be_heading, loose_heading_like, Py.any_char_in. simpl.
  now rewrite orb_false_r, orb_assoc.
Qed.

Lemma potential_heading_blocks_loose (text_blocks : list TextBlock) :
  potential_heading_loop text_blocks []
  = List.filter loose_heading_like text_blocks.
Proof.
  rewrite potential_heading_loop_filter. simpl.
  apply List.filter_ext. intros b. apply could_be_heading_loose.
Qed.

Lemma heading_matching_blocks_staged target_text context text_blocks :
  heading_matching_blocks target_text context text_blocks
  = staged_heading_candidates target_text context text_blocks.
Proof.
  unfold heading_matching_blocks, staged_heading_candidates.
  rewrite potential_heading_blocks_loose.
  destruct (_find_matching_text_blocks target_text
              (List.filter is_heading text_blocks) context); simpl;
    [|reflexivity].
  destruct (_find_matching_text_blocks target_text
              (List.filter loose_heading_like text_blocks) context); simpl;
    reflexivity.
Qed.

(** ** Lifetime of a text block *)

(** The matcher and the heading resolution return blocks of the list
    they are given, as they are. *)
Lemma find_matching_returns_input_blocks
    (target_text : string) (text_blocks : list TextBlock)
    (context : option string) (block : TextBlock) :
  In block (_find_matching_text_blocks target_text text_blocks context) ->
  In block text_blocks.
Proof.
  rewrite find_matching_filters. cbv zeta.
  destruct (negb (is_empty (List.filter _ text_blocks)));
    [|destruct (Py.truthy_opt context && _)];
    intros H; apply List.filter_In in H; tauto.
Qed.

Lemma heading_matching_returns_input_blocks
    (target_text : string) (context : option string)
    (text_blocks : list TextBlock) (block : TextBlock) :
  In block (heading_matching_blocks target_text context text_blocks) ->
  In block text_blocks.
Proof.
  rewrite heading_matching_blocks_staged. unfold staged_heading_candidates.
  destruct (negb (is_empty _)); [|destruct (negb (is_empty _))];
    intros H; apply find_matching_returns_input_blocks in H;
    try apply List.filter_In in H; tauto.
Qed.

Lemma in_enumerate {A} (l : list A) (i : nat) (x : A) :
  In (i, x) (enumerate l) -> (i < List.length l)%nat.
Proof.
  unfold enumerate. intros H. apply in_combine_l in H.
  apply in_seq in H. lia.
Qed.

Lemma in_combine_seq {A} (l : list A) (a i : nat) (x d : A) :
  In (i, x) (combine (List.seq a (List.length l)) l) ->
  (a <= i)%nat /\ nth (i - a) l d = x.
Proof.
  revert a. induction l as [|y l IH]; intros a; simpl; [tauto|].
  intros [H|H].
  - inversion H; subst. rewrite Nat.sub_diag. split; [lia|reflexivity].
  - apply IH in H as [Hle Hn]. split; [lia|].
    replace (i - a)%nat with (S (i - S a)) by lia. exact Hn.
Qed.

Lemma enumerate_nth {A} (l : list A) (i : nat) (x d : A) :
  In (i, x) (enumerate l) -> nth i l d = x.
Proof.
  unfold enumerate. intros H.
  apply (in_combine_seq l 0 i x d) in H as [_ H].
  now rewrite Nat.sub_0_r in H.
Qed.

(** Where an extracted block comes from. *)
Lemma in_extracted (py : Interpreter) (doc : Document) (tb : TextBlock) :
  In tb (fst (extract_text_blocks py doc)) ->
  exists pn page span,
    In (pn, page) (enumerate doc)
    /\ In span (page_spans page)
    /\ keeps_span span = true
    /\ tb = classified_block (page_average py page) pn span.
Proof.
  rewrite extract_text_blocks_by_page. intros H.
  apply in_flat_map in H as [[pn page] [Hp H]].
  unfold page_text_blocks in H. simpl in H.
  apply in_map_iff in H as [span [<- Hs]].
  apply List.filter_In in Hs as [Hs Hk].
  exists pn, page, span. auto.
Qed.

(** C9. [is_heading] is monotone over the lifetime of a block, for
    either interpreter.  The constructor sets it from the text rules.
    A step of the extraction leaves the blocks collected so far as they
    are, and so does the extraction of any further pages.  Every block
    the extraction returns is the block the constructor builds from its
    attributes, or, where its font size exceeds 1.2 times the average
    of its page, that block with [is_heading] set to true: the flag is
    the one of the construction or true, never false after true.  The
    matcher and the heading resolution return blocks of the list they
    are given, as they are. *)
Theorem is_heading_monotone (py : Interpreter) :
  (forall t bb pn fs fn,
      is_heading (new_TextBlock t bb pn fs fn) = _is_heading t)
  /\ (forall blocks pn st span,
        fst st `prefix_of` fst (extract_span py blocks pn st span))
  /\ (forall pages st,
        fst st `prefix_of` fst (fold_left (extract_page py) pages st))
  /\ (forall doc,
        Forall
          (fun tb =>
             let built :=
               new_TextBlock (text tb) (bbox tb) (page_num tb) (font_size tb)
                 (font_name tb) in
             let avg_font_size :=
               _calculate_average_font_size py (nth (page_num tb) doc []) in
             tb = (if PrimFloat.ltb (avg_font_size * 1.2)%float (font_size tb)
                   then set_is_heading_true built
                   else built))
          (fst (extract_text_blocks py doc)))
  /\ (forall target_text text_blocks context,
        incl (_find_matching_text_blocks target_text text_blocks context)
             text_blocks)
  /\ (forall target_text context text_blocks,
        incl (heading_matching_blocks target_text context text_blocks)
             text_blocks).
Proof.
  split; [reflexivity|].
  split.
  { intros blocks pn st span. rewrite extract_span_fst.
    now apply prefix_app_r. }
  split.
  { intros pages st. rewrite extract_pages_fst. now apply prefix_app_r. }
  split.
  { intros doc. apply List.Forall_forall. intros tb H.
    apply in_extracted in H as (pn & page & span & Hp & _ & _ & ->).
    cbv zeta. unfold classified_block.
    cbn [text bbox page_num font_size font_name].
    rewrite (enumerate_nth doc pn page [] Hp).
    rewrite calculate_average_is_page_average.
    unfold new_TextBlock, set_is_heading_true.
    cbn [text bbox page_num font_size font_name].
    destruct (PrimFloat.ltb _ _).
    - now rewrite orb_true_r.
    - now rewrite orb_false_r. }
  split.
  - intros target_text text_blocks context block.
    apply find_matching_returns_input_blocks.
  - intros target_text context text_blocks block.
    apply heading_matching_returns_input_blocks.
Qed.

(** A block that the text rules classify as a heading and whose font
    size is below the average of its page keeps its flag, and a block
    that only the font-size rule flags has it set. *)
Example heading_flag_after_extraction :
  let doc :=
    [[TextLines [[mkSpan "1. Introduction" zero_bbox 10 "Times";
                  mkSpan "see the notes, then continue" zero_bbox 14 "Times";
                  mkSpan "the body of the section, in plain words."
                         zero_bbox 10 "Times"]]]] in
  List.map _is_heading
    ["1. Introduction"; "see the notes, then continue";
     "the body of the section, in plain words."]
  = [true; false; false]
  /\ List.map is_heading (fst (extract_text_blocks AddsLeftToRight doc))
     = [true; true; false]
  /\ List.map is_heading (fst (extract_text_blocks AddsCompensated doc))
     = [true; true; false].
Proof. vm_compute. repeat split. Qed.

(** ** Properties of the heading modification *)

(** C4. For a [modify_heading] request the blocks to edit are found in
    stages: the matcher over the blocks flagged [is_heading]; if that
    finds nothing, over the blocks passing the looser filter; if that
    finds nothing, over all blocks.  When the three searches find
    nothing the call returns normally with the document unchanged;
    otherwise the blocks of the first successful stage are edited. *)
Theorem heading_modification_staged {D : DocumentModel}
    (client : LLMClient) (doc : Doc D) (edit_request : EditRequest)
    (text_blocks : list TextBlock) :
  let target := Py.strip (target_text edit_request) in
  let ctx := context edit_request in
  let among_headings :=
    _find_matching_text_blocks target
      (List.filter is_heading text_blocks) ctx in
  let among_heading_like :=
    _find_matching_text_blocks target
      (List.filter loose_heading_like text_blocks) ctx in
  let among_all := _find_matching_text_blocks target text_blocks ctx in
  heading_matching_blocks target ctx text_blocks
  = (if negb (is_empty among_headings) then among_headings
     else if negb (is_empty among_heading_like) then among_heading_like
     else among_all)
  /\ _apply_heading_modification client doc edit_request text_blocks
     = (if is_empty among_headings && is_empty among_heading_like
           && is_empty among_all
        then Some doc
        else heading_loop doc
               (maybe_humanize client (replacement_text edit_request))
               (heading_matching_blocks target ctx text_blocks)).
Proof.
  intros target ctx among_headings among_heading_like among_all.
  split.
  - apply heading_matching_blocks_staged.
  - unfold _apply_heading_modification.
    fold target ctx.
    rewrite heading_matching_blocks_staged.
    unfold staged_heading_candidates.
    fold among_headings among_heading_like among_all.
    destruct among_headings; simpl; [|reflexivity].
    destruct among_heading_like; simpl; [|reflexivity].
    destruct among_all; reflexivity.
Qed.

(** A request whose target occurs nowhere leaves the recorded document
    as it was and does not stop the requests that follow. *)
Example unmatched_heading_request_is_dropped :
  let D := recording_document ["helv"] in
  let blocks := [plain_block "Introduction"; plain_block "Some body text, here"] in
  let missing := mkEditRequest "modify_heading" "Conclusion" (Some "Summary") None in
  let present := mkEditRequest "modify_heading" "introduction" (Some "Overview") None in
  _apply_heading_modification (D := D) no_llm [] missing blocks = Some []
  /\ apply_requests (D := D) no_llm [] [missing; present] blocks
     = Some [DrawRect 0 zero_bbox;
             InsertText 0 (0, 0 + 12 * 0.8)%float "Overview" 12 (Some "helv")].
Proof. vm_compute. split; reflexivity. Qed.

(** ** The JSON decoder never lacks fuel *)

Lemma skip_ws_le (s : string) :
  (String.length (Json.skip_ws s) <= String.length s)%nat.
Proof.
  induction s as [|c r IH]; simpl; [lia|].
  destruct (Json.is_ws c); simpl; lia.
Qed.

Lemma after_char_length (c : ascii) (s r : string) :
  Json.after_char c s = Some r -> String.length s = S (String.length r).
Proof.
  destruct s as [|c' r']; simpl; [discriminate|].
  destruct (Ascii.eqb c' c); [|discriminate].
  intros [= ->]. reflexivity.
Qed.

Lemma scan_string_shorter (s : string) :
  forall skip acc str rest,
    Json.scan_string skip acc s = Some (str, rest) ->
    (String.length rest < String.length s)%nat.
Proof.
  induction s as [|c r IH]; intros skip acc str rest; simpl; [discriminate|].
  destruct skip as [|k].
  - destruct (Ascii.eqb c dquote).
    + intros [= _ ->]. lia.
    + destruct (Ascii.eqb c Json.backslash).
      * destruct (Json.escape r) as [[decoded n]|]; [|discriminate].
        intros H. apply IH in H. lia.
      * destruct (N_of_ascii c <? 32)%N; [discriminate|].
        intros H. apply IH in H. lia.
  - intros H. apply IH in H. lia.
Qed.

Lemma prefix_drop_length (p s : string) :
  String.prefix p s = true ->
  (String.length (Py.drop (String.length p) s) + String.length p
   = String.length s)%nat.
Proof.
  revert s. induction p as [|a p IH]; intros s.
  - intros _. destruct s; simpl; lia.
  - destruct s as [|b s]; simpl; [discriminate|].
    destruct (ascii_dec a b); [|discriminate].
    intros H. apply IH in H. lia.
Qed.

Lemma span_digits_le (s : string) :
  (String.length (snd (Json.span_digits s)) <= String.length s)%nat.
Proof.
  induction s as [|c r IH]; simpl; [lia|].
  destruct (Json.is_digit c); simpl; [|lia].
  destruct (Json.span_digits r) as [ds rest]. simpl in *. lia.
Qed.

Lemma span_digits_digit (c : ascii) (r : string) :
  Json.is_digit c = true ->
  (String.length (snd (Json.span_digits (String c r))) <= String.length r)%nat.
Proof.
  intros H. simpl. rewrite H.
  pose proof (span_digits_le r) as Hle.
  destruct (Json.span_digits r) as [ds rest]. simpl in *. lia.
Qed.

Lemma match_int_shorter (s lexeme rest : string) :
  Json.match_int s = Some (lexeme, rest) ->
  (String.length rest < String.length s)%nat.
Proof.
  unfold Json.match_int.
  assert (H : exists sign s1,
             match Json.after_char "-" s with
             | Some r => ("-"%string, r)
             | None => (EmptyString, s)
             end = (sign, s1)
             /\ (String.length s1 <= String.length s)%nat).
  { destruct (Json.after_char "-" s) as [r|] eqn:E.
    - apply after_char_length in E. exists "-"%string, r. split; [reflexivity|lia].
    - exists EmptyString, s. split; [reflexivity|lia]. }
  destruct H as (sign & s1 & -> & Hle).
  destruct s1 as [|c r]; [discriminate|].
  destruct (Ascii.eqb c "0").
  - intros [= _ <-]. simpl in *. lia.
  - destruct (Json.is_digit c) eqn:Hd; [|discriminate].
    pose proof (span_digits_digit c r Hd) as Hs.
    destruct (Json.span_digits (String c r)) as [ds rest'].
    intros [= _ <-]. simpl in *. lia.
Qed.

Lemma match_frac_le (s : string) :
  (String.length (snd (Json.match_frac s)) <= String.length s)%nat.
Proof.
  unfold Json.match_frac.
  destruct (Json.after_char "." s) as [r|] eqn:E; [|simpl; lia].
  apply after_char_length in E.
  pose proof (span_digits_le r) as Hle.
  destruct (Json.span_digits r) as [[|d ds] rest]; simpl in *; lia.
Qed.

Lemma match_exp_le (s : string) :
  (String.length (snd (Json.match_exp s)) <= String.length s)%nat.
Proof.
  unfold Json.match_exp.
  destruct s as [|e r]; [simpl; lia|].
  destruct (Ascii.eqb e "e" || Ascii.eqb e "E"); [|simpl; lia].
  destruct r as [|c r'].
  - simpl. lia.
  - destruct (Ascii.eqb c "-" || Ascii.eqb c "+").
    + pose proof (span_digits_le r') as Hle.
      destruct (Json.span_digits r') as [[|d ds] rest]; simpl in *; lia.
    + pose proof (span_digits_le (String c r')) as Hle.
      destruct (Json.span_digits (String c r')) as [[|d ds] rest];
        simpl in *; lia.
Qed.

Lemma match_number_shorter (s lexeme rest : string) :
  Json.match_number s = Some (lexeme, rest) ->
  (String.length rest < String.length s)%nat.
Proof.
  unfold Json.match_number.
  destruct (Json.match_int s) as [[i r1]|] eqn:Hi; [|discriminate].
  apply match_int_shorter in Hi.
  pose proof (match_frac_le r1) as Hf.
  destruct (Json.match_frac r1) as [f r2].
  pose proof (match_exp_le r2) as He.
  destruct (Json.match_exp r2) as [e r3].
  intros [= _ <-]. simpl in *. lia.
Qed.

Lemma scan_atom_shorter (s : string) (v : Json.value) (rest : string) :
  Json.scan_atom s = Json.Ok (v, rest) ->
  (String.length rest < String.length s)%nat.
Proof.
  unfold Json.scan_atom.
  repeat match goal with
  | |- context [String.prefix ?p s] =>
      let E := fresh "E" in
      destruct (String.prefix p s) eqn:E;
      [apply prefix_drop_length in E; simpl in E;
       intros [= _ <-]; lia|]
  | |- context [Json.match_number s] =>
      let E := fresh "E" in
      destruct (Json.match_number s) as [[lexeme r]|] eqn:E;
      [apply match_number_shorter in E; intros [= _ <-]; exact E|]
  end.
  discriminate.
Qed.

Lemma next_after_value_shorter (close : ascii) (s : string) :
  match Json.next_after_value close s with
  | Json.Close rest | Json.Comma rest =>
      (String.length rest < String.length s)%nat
  | Json.Neither => True
  end.
Proof.
  unfold Json.next_after_value.
  pose proof (skip_ws_le s) as Hs.
  destruct (Json.after_char close (Json.skip_ws s)) as [r|] eqn:E.
  - apply after_char_length in E. lia.
  - destruct (Json.after_char "," (Json.skip_ws s)) as [r|] eqn:E'; [|exact I].
    apply after_char_length in E'. pose proof (skip_ws_le r). lia.
Qed.

Lemma scan_atom_has_fuel (s : string) : Json.scan_atom s <> Json.OutOfFuel.
Proof.
  unfold Json.scan_atom.
  repeat match goal with
  | |- context [if ?b then _ else _] => destruct b; [discriminate|]
  | |- context [Json.match_number s] =>
      destruct (Json.match_number s) as [[lexeme r]|]; [discriminate|]
  end.
  discriminate.
Qed.

Lemma scan_fuel_enough (fuel : nat) :
  (forall s, (2 * String.length s < fuel)%nat ->
             consumes s (Json.scan_once fuel s))
  /\ (forall s values, (2 * String.length s + 1 < fuel)%nat ->
                       consumes s (Json.scan_elements fuel s values))
  /\ (forall s pairs, (2 * String.length s + 1 < fuel)%nat ->
                      consumes s (Json.scan_members fuel s pairs)).
Proof.
  induction fuel as [|fuel (IHonce & IHelems & IHmembers)].
  { repeat split; intros; lia. }
  split; [|split].
  - intros s Hfuel. destruct s as [|c r]; simpl; [exact I|].
    simpl in Hfuel. pose proof (skip_ws_le r) as Hws.
    destruct (Ascii.eqb c dquote).
    { destruct (Json.scan_string 0 EmptyString r) as [[str rest]|] eqn:E;
        simpl; [|exact I].
      apply scan_string_shorter in E. lia. }
    destruct (Ascii.eqb c "{").
    { destruct (Json.after_char "}" (Json.skip_ws r)) as [rest|] eqn:E; simpl.
      - apply after_char_length in E. lia.
      - assert (Hlt : (2 * String.length (Json.skip_ws r) + 1 < fuel)%nat) by lia.
        assert (Hm := IHmembers (Json.skip_ws r) [] Hlt).
        destruct (Json.scan_members fuel (Json.skip_ws r) []) as [[v rest]| |];
          simpl in *; [lia|exact I|exact Hm]. }
    destruct (Ascii.eqb c "[").
    { destruct (Json.after_char "]" (Json.skip_ws r)) as [rest|] eqn:E; simpl.
      - apply after_char_length in E. lia.
      - assert (Hlt : (2 * String.length (Json.skip_ws r) + 1 < fuel)%nat) by lia.
        assert (Hm := IHelems (Json.skip_ws r) [] Hlt).
        destruct (Json.scan_elements fuel (Json.skip_ws r) []) as [[v rest]| |];
          simpl in *; [lia|exact I|exact Hm]. }
    pose proof (scan_atom_has_fuel (String c r)) as Hno.
    destruct (Json.scan_atom (String c r)) as [[v rest]| |] eqn:E; simpl.
    + apply scan_atom_shorter in E. simpl in E. exact E.
    + exact I.
    + now apply Hno.
  - intros s values Hfuel. simpl.
    assert (Hlt : (2 * String.length s < fuel)%nat) by lia.
    assert (Ho := IHonce s Hlt).
    destruct (Json.scan_once fuel s) as [[v rest]| |]; simpl in *;
      [|exact I|exact Ho].
    pose proof (next_after_value_shorter "]" rest) as Hn.
    destruct (Json.next_after_value "]" rest) as [rest'|rest'|]; simpl.
    + lia.
    + assert (Hlt' : (2 * String.length rest' + 1 < fuel)%nat) by lia.
      assert (He := IHelems rest' (values ++ [v]) Hlt').
      destruct (Json.scan_elements fuel rest' (values ++ [v])) as [[v' r']| |];
        simpl in *; [lia|exact I|exact He].
    + exact I.
  - intros s pairs Hfuel. simpl.
    destruct (Json.after_char dquote s) as [r|] eqn:Eq; simpl; [|exact I].
    apply after_char_length in Eq.
    destruct (Json.scan_string 0 EmptyString r) as [[key rest]|] eqn:Ek;
      simpl; [|exact I].
    apply scan_string_shorter in Ek.
    pose proof (skip_ws_le rest) as Hws.
    destruct (Json.after_char ":" (Json.skip_ws rest)) as [rest1|] eqn:Ec;
      simpl; [|exact I].
    apply after_char_length in Ec.
    pose proof (skip_ws_le rest1) as Hws1.
    assert (Hlt : (2 * String.length (Json.skip_ws rest1) < fuel)%nat) by lia.
    assert (Ho := IHonce (Json.skip_ws rest1) Hlt).
    destruct (Json.scan_once fuel (Json.skip_ws rest1)) as [[v rest2]| |];
      simpl in *; [|exact I|exact Ho].
    pose proof (next_after_value_shorter "}" rest2) as Hn.
    destruct (Json.next_after_value "}" rest2) as [rest3|rest3|]; simpl.
    + lia.
    + assert (Hlt' : (2 * String.length rest3 + 1 < fuel)%nat) by lia.
      assert (Hm := IHmembers rest3 (pairs ++ [(key, v)]) Hlt').
      destruct (Json.scan_members fuel rest3 (pairs ++ [(key, v)]))
        as [[v' r']| |]; simpl in *; [lia|exact I|exact Hm].
    + exact I.
Qed.

(** The decoder fails on malformed input only, never for lack of fuel. *)
Lemma decode_has_fuel (s : string) : Json.decode s <> Json.OutOfFuel.
Proof.
  unfold Json.decode.
  pose proof (skip_ws_le s) as Hws.
  destruct (scan_fuel_enough (2 * String.length s + 1)) as (Honce & _ & _).
  assert (Hlt : (2 * String.length (Json.skip_ws s)
                 < 2 * String.length s + 1)%nat) by lia.
  specialize (Honce (Json.skip_ws s) Hlt).
  destruct (Json.scan_once (2 * String.length s + 1) (Json.skip_ws s))
    as [[v rest]| |]; simpl in Honce.
  - destruct (Json.skip_ws rest); discriminate.
  - discriminate.
  - contradiction.
Qed.

(** ** Properties of the parsing of the answer *)

Lemma edits_loop_strings (l : list string) (edits : list EditRequest) :
  edits_loop (List.map Json.Str l) edits = Some edits.
Proof. induction l as [|x l IH]; simpl; [reflexivity | exact IH]. Qed.

(** C6. The answer is handed to the rule-based parser, as it was
    received, exactly when the JSON decoder rejects the cleaned answer
    or decodes it to a value that cannot be iterated (null, a boolean,
    a number).  An answer decoded to a JSON string or object is not
    handed on: the result is the empty list.  An answer decoded to a
    list yields the requests of its items. *)
Theorem parse_edit_response_fallback (response : string) :
  _parse_edit_response response =
    match Json.loads (clean_response response) with
    | None
    | Some Json.Null | Some (Json.Bool _) | Some (Json.Number _) =>
        Some (_rule_based_parsing response)
    | Some (Json.Str _) | Some (Json.Object _) => Some []
    | Some (Json.Array items) => edits_loop items []
    end.
Proof.
  unfold _parse_edit_response.
  destruct (Json.loads (clean_response response)) as [[| | | | |]|]; simpl;
    try reflexivity; apply edits_loop_strings.
Qed.

(** An answer that is a JSON string is not a JSON list, yet it is not
    handed to the rule-based parser, which would find a request in
    it. *)
Lemma json_string_answer_not_reparsed :
  Json.loads (clean_response (quoted "highlight foo"))
  = Some (Json.Str "highlight foo")
  /\ _parse_edit_response (quoted "highlight foo") = Some []
  /\ _rule_based_parsing (quoted "highlight foo")
     = [mkEditRequest "highlight" "foo" None None]
  /\ _parse_edit_response (quoted "highlight foo")
     <> Some (_rule_based_parsing (quoted "highlight foo")).
Proof. vm_compute. repeat split. discriminate. Qed.

(** Answers the decoder rejects, with and without a code fence. *)
Example malformed_answer_reparsed :
  Json.loads (clean_response "Sure: highlight 'Results'") = None
  /\ _parse_edit_response "Sure: highlight 'Results'"
     = Some [mkEditRequest "highlight" "Results" None None]
  /\ Json.loads (clean_response "```json [oops ```") = None
  /\ _parse_edit_response "```json [oops ```"
     = Some (_rule_based_parsing "```json [oops ```").
Proof. vm_compute. repeat split. Qed.

(** The documented prompt of the rule-based parser. *)
Example rule_based_documented :
  _rule_based_parsing "Change 'Introduction' to 'Overview'"
  = [mkEditRequest "replace" "Introduction" (Some "Overview") None].
Proof. vm_compute. reflexivity. Qed.

(** * Further properties *)

(** ** Substrings, case and blanks *)

Lemma prefix_app_iff (p s : string) :
  String.prefix p s = true <-> exists post, s = (p ++ post)%string.
Proof.
  revert s. induction p as [|a p IH]; intros s.
  - split; [intros _; exists s; reflexivity | intros _; destruct s; reflexivity].
  - destruct s as [|b s]; simpl.
    + split; [discriminate | intros [post H]; discriminate H].
    + destruct (ascii_dec a b) as [->|Hne].
      * rewrite IH. split; intros [post H]; exists post.
        -- now rewrite H.
        -- now injection H.
      * split; [discriminate|].
        intros [post H]. injection H as H1 _. now elim Hne.
Qed.

Lemma contains_iff (sub s : string) :
  Py.contains sub s = true
  <-> exists pre post, s = (pre ++ sub ++ post)%string.
Proof.
  induction s as [|c r IH]; cbn [Py.contains].
  - rewrite orb_false_r, prefix_app_iff. split.
    + intros [post H]. exists EmptyString, post. exact H.
    + intros [[|a pre] [post H]]; [exists post; exact H | discriminate H].
  - rewrite orb_true_iff, prefix_app_iff, IH. split.
    + intros [[post H] | (pre & post & H)].
      * exists EmptyString, post. exact H.
      * exists (String c pre), post. simpl. now rewrite H.
    + intros ([|a pre] & post & H).
      * left. exists post. exact H.
      * right. injection H as _ H. exists pre, post. exact H.
Qed.

Lemma string_app_assoc (a b c : string) :
  ((a ++ b) ++ c = a ++ (b ++ c))%string.
Proof. induction a as [|x a IH]; simpl; [reflexivity | now rewrite IH]. Qed.

Lemma string_app_nil_r (a : string) : (a ++ EmptyString)%string = a.
Proof. induction a as [|x a IH]; simpl; [reflexivity | now rewrite IH]. Qed.

Lemma contains_empty (s : string) : Py.contains EmptyString s = true.
Proof. apply contains_iff. exists EmptyString, s. reflexivity. Qed.

Lemma contains_refl (s : string) : Py.contains s s = true.
Proof.
  apply contains_iff. exists EmptyString, EmptyString.
  simpl. now rewrite string_app_nil_r.
Qed.

Lemma contains_trans (a b c : string) :
  Py.contains a b = true -> Py.contains b c = true -> Py.contains a c = true.
Proof.
  rewrite !contains_iff.
  intros (p1 & q1 & ->) (p2 & q2 & ->).
  exists (p2 ++ p1)%string, (q1 ++ q2)%string.
  now rewrite !string_app_assoc.
Qed.

Lemma lower_char_idem (c : ascii) :
  Py.lower_char (Py.lower_char c) = Py.lower_char c.
Proof. destruct c as [[] [] [] [] [] [] [] []]; reflexivity. Qed.

Lemma lower_idem (s : string) : Py.lower (Py.lower s) = Py.lower s.
Proof.
  induction s as [|c r IH]; simpl; [reflexivity|].
  now rewrite lower_char_idem, IH.
Qed.

Lemma lower_app (a b : string) :
  Py.lower (a ++ b) = (Py.lower a ++ Py.lower b)%string.
Proof. induction a as [|c a IH]; simpl; [reflexivity | now rewrite IH]. Qed.

Lemma truthy_lower (s : string) : Py.truthy (Py.lower s) = Py.truthy s.
Proof. destruct s; reflexivity. Qed.

Lemma isspace_lower_char (c : ascii) :
  Py.isspace (Py.lower_char c) = Py.isspace c.
Proof. destruct c as [[] [] [] [] [] [] [] []]; reflexivity. Qed.

Lemma split_from_lower (cur s : string) :
  Py.split_from (Py.lower cur) (Py.lower s)
  = List.map Py.lower (Py.split_from cur s).
Proof.
  revert cur. induction s as [|c r IH]; intros cur; simpl.
  - rewrite truthy_lower. destruct (Py.truthy cur); reflexivity.
  - rewrite isspace_lower_char, truthy_lower.
    destruct (Py.isspace c).
    + destruct (Py.truthy cur); simpl; now rewrite <- (IH EmptyString).
    + rewrite <- IH, lower_app. reflexivity.
Qed.

Lemma split_lower (s : string) :
  Py.split (Py.lower s) = List.map Py.lower (Py.split s).
Proof. exact (split_from_lower EmptyString s). Qed.

Lemma filter_all_true {A} (f : A -> bool) (l : list A) :
  (forall x, f x = true) -> List.filter f l = l.
Proof.
  intros H. induction l as [|x l IH]; simpl; [reflexivity|].
  now rewrite H, IH.
Qed.

Lemma filter_filter_nil {A} (f p : A -> bool) (l : list A) :
  List.filter f l = [] -> List.filter f (List.filter p l) = [].
Proof.
  induction l as [|x l IH]; simpl; [reflexivity|].
  destruct (f x) eqn:Hf; [discriminate|].
  intros H. destruct (p x); simpl; [rewrite Hf|]; auto.
Qed.

Lemma is_empty_nil_iff {A} (l : list A) : is_empty l = true <-> l = [].
Proof. destruct l; simpl; split; congruence. Qed.

(** ** More on the matcher *)

Lemma exact_pred_contains (tl : string) (block : TextBlock) :
  exact_pred tl block = Py.contains tl (Py.lower (text block)).
Proof.
  unfold exact_pred.
  destruct (String.eqb tl (Py.lower (text block))) eqn:E; [|reflexivity].
  apply String.eqb_eq in E. rewrite <- E. simpl. symmetry. apply contains_refl.
Qed.

(** X1. An empty target is found in every block: the matcher returns the
    whole list, whatever the context. *)
Theorem empty_target_matches_every_block
    (text_blocks : list TextBlock) (context : option string) :
  _find_matching_text_blocks EmptyString text_blocks context = text_blocks.
Proof.
  rewrite find_matching_filters. cbv zeta. simpl Py.lower.
  rewrite (filter_all_true (exact_pred EmptyString)).
  - destruct text_blocks as [|b l]; [|reflexivity].
    simpl. now destruct (Py.truthy_opt context).
  - intros b. rewrite exact_pred_contains. apply contains_empty.
Qed.

Lemma fuzzy_match_lower (target text0 : string) (context : option string) :
  _fuzzy_match target text0 context
  = _fuzzy_match (Py.lower target) text0 (option_map Py.lower context).
Proof.
  unfold _fuzzy_match. rewrite lower_idem.
  assert (Hwords :
            match option_map Py.lower context with
            | Some c => if Py.truthy c then Py.split (Py.lower c) else []
            | None => []
            end
            = match context with
              | Some c => if Py.truthy c then Py.split (Py.lower c) else []
              | None => []
              end).
  { destruct context as [c|]; simpl; [|reflexivity].
    now rewrite truthy_lower, lower_idem. }
  rewrite Hwords.
  assert (Htruthy : Py.truthy_opt (option_map Py.lower context)
                    = Py.truthy_opt context).
  { destruct context as [c|]; simpl; [apply truthy_lower | reflexivity]. }
  rewrite Htruthy. reflexivity.
Qed.

Lemma find_matching_lower (target_text : string)
    (text_blocks : list TextBlock) (context : option string) :
  _find_matching_text_blocks target_text text_blocks context
  = _find_matching_text_blocks (Py.lower target_text) text_blocks
      (option_map Py.lower context).
Proof.
  rewrite !find_matching_filters. cbv zeta. rewrite lower_idem.
  assert (Hf : List.filter (fuzzy_pred target_text context) text_blocks
               = List.filter
                   (fuzzy_pred (Py.lower target_text)
                      (option_map Py.lower context)) text_blocks).
  { apply List.filter_ext. intros b. apply fuzzy_match_lower. }
  rewrite Hf.
  assert (Ht : Py.truthy_opt (option_map Py.lower context)
               = Py.truthy_opt context).
  { destruct context as [c|]; simpl; [apply truthy_lower | reflexivity]. }
  rewrite Ht. reflexivity.
Qed.

(** X2. The matcher does not see the case of the target or of the context:
    two targets, and two contexts, that agree once lowercased select
    the same blocks. *)
Theorem find_matching_ignores_case
    (target1 target2 : string) (context1 context2 : option string)
    (text_blocks : list TextBlock) :
  Py.lower target1 = Py.lower target2 ->
  option_map Py.lower context1 = option_map Py.lower context2 ->
  _find_matching_text_blocks target1 text_blocks context1
  = _find_matching_text_blocks target2 text_blocks context2.
Proof.
  intros Ht Hc.
  rewrite (find_matching_lower target1), (find_matching_lower target2).
  now rewrite Ht, Hc.
Qed.

Lemma find_matching_ignores_case_witness :
  let blocks := [plain_block "Quarterly Results"; plain_block "Appendix"] in
  Py.lower "RESULTS" = Py.lower "results"
  /\ option_map Py.lower (Some "Quarterly") = option_map Py.lower (Some "quarterly")
  /\ _find_matching_text_blocks "RESULTS" blocks (Some "Quarterly")
     = _find_matching_text_blocks "results" blocks (Some "quarterly").
Proof.
  intros blocks.
  split; [reflexivity|]. split; [reflexivity|].
  apply (find_matching_ignores_case "RESULTS" "results" (Some "Quarterly")
           (Some "quarterly") blocks); reflexivity.
Defined.

(** X3. When some block contains the target, the matcher returns exactly the
    blocks that contain it: the blocks an exact comparison would find
    are among them, and the fuzzy and word-overlap stages add none. *)
Theorem find_matching_substring_complete
    (target_text : string) (text_blocks : list TextBlock)
    (context : option string) (block : TextBlock) :
  In block text_blocks ->
  Py.contains (Py.lower target_text) (Py.lower (text block)) = true ->
  _find_matching_text_blocks target_text text_blocks context
  = List.filter
      (fun b => Py.contains (Py.lower target_text) (Py.lower (text b)))
      text_blocks
  /\ In block (_find_matching_text_blocks target_text text_blocks context).
Proof.
  intros Hin Hc.
  assert (Hf : List.filter (exact_pred (Py.lower target_text)) text_blocks
               = List.filter
                   (fun b => Py.contains (Py.lower target_text)
                               (Py.lower (text b))) text_blocks).
  { apply List.filter_ext. intros b. apply exact_pred_contains. }
  assert (Hb : In block
                 (List.filter
                    (fun b => Py.contains (Py.lower target_text)
                                (Py.lower (text b))) text_blocks)).
  { apply List.filter_In. split; assumption. }
  rewrite find_matching_filters. cbv zeta. rewrite Hf. clear Hf.
  set (sel := List.filter _ text_blocks) in *.
  destruct sel as [|b0 l].
  - destruct Hb.
  - simpl. split; [reflexivity | exact Hb].
Qed.

Lemma find_matching_substring_complete_witness :
  let b1 := plain_block "Annual Report 2023" in
  let b2 := plain_block "report annual" in
  In b1 [b1; b2]
  /\ Py.contains (Py.lower "Annual Report") (Py.lower (text b1)) = true
  /\ _find_matching_text_blocks "Annual Report" [b1; b2] None
     = List.filter
         (fun b => Py.contains (Py.lower "Annual Report") (Py.lower (text b)))
         [b1; b2]
  /\ In b1 (_find_matching_text_blocks "Annual Report" [b1; b2] None).
Proof.
  intros b1 b2.
  assert (Hin : In b1 [b1; b2]) by (left; reflexivity).
  assert (Hc : Py.contains (Py.lower "Annual Report") (Py.lower (text b1)) = true)
    by reflexivity.
  split; [exact Hin|]. split; [exact Hc|].
  exact (find_matching_substring_complete "Annual Report" [b1; b2] None b1
           Hin Hc).
Defined.

Lemma find_matching_nil_filters (target_text : string)
    (text_blocks : list TextBlock) (context : option string) :
  _find_matching_text_blocks target_text text_blocks context = [] <->
  List.filter (exact_pred (Py.lower target_text)) text_blocks = []
  /\ (Py.truthy_opt context = true ->
      List.filter (fuzzy_pred target_text context) text_blocks = [])
  /\ List.filter (partial_pred (Py.split (Py.lower target_text))) text_blocks
     = [].
Proof.
  rewrite find_matching_filters. cbv zeta.
  destruct (List.filter (exact_pred _) text_blocks) as [|b1 l1]; simpl.
  - destruct (Py.truthy_opt context); simpl.
    + destruct (List.filter (fuzzy_pred _ _) text_blocks) as [|b2 l2]; simpl.
      * tauto.
      * split; [discriminate|]. intros (_ & H & _). now apply H.
    + split; [intros H; repeat split; [discriminate | exact H] | tauto].
  - split; [discriminate | intros [H _]; discriminate H].
Qed.

(** X4. If the matcher finds nothing in a list, it finds nothing in any
    selection from that list. *)
Theorem find_matching_nothing_in_selection
    (target_text : string) (text_blocks : list TextBlock)
    (context : option string) (keep : TextBlock -> bool) :
  _find_matching_text_blocks target_text text_blocks context = [] ->
  _find_matching_text_blocks target_text (List.filter keep text_blocks) context
  = [].
Proof.
  rewrite !find_matching_nil_filters.
  intros (H1 & H2 & H3). repeat split.
  - now apply filter_filter_nil.
  - intros Ht. apply filter_filter_nil. now apply H2.
  - now apply filter_filter_nil.
Qed.

Lemma find_matching_nothing_in_selection_witness :
  let blocks := [plain_block "Introduction"; plain_block "Some body text, here"] in
  _find_matching_text_blocks "Conclusion" blocks None = []
  /\ _find_matching_text_blocks "Conclusion" (List.filter is_heading blocks) None
     = [].
Proof.
  intros blocks.
  assert (H : _find_matching_text_blocks "Conclusion" blocks None = [])
    by reflexivity.
  split; [exact H|].
  exact (find_matching_nothing_in_selection "Conclusion" blocks None is_heading H).
Defined.

Lemma heading_matching_nil_iff (target_text : string)
    (context : option string) (text_blocks : list TextBlock) :
  heading_matching_blocks target_text context text_blocks = [] <->
  _find_matching_text_blocks target_text text_blocks context = [].
Proof.
  rewrite heading_matching_blocks_staged. unfold staged_heading_candidates.
  split.
  - destruct (_find_matching_text_blocks target_text
                (List.filter is_heading text_blocks) context); simpl;
      [|discriminate].
    destruct (_find_matching_text_blocks target_text
                (List.filter loose_heading_like text_blocks) context); simpl;
      [trivial | discriminate].
  - intros H.
    rewrite (find_matching_nil_filters target_text text_blocks) in H.
    assert (Hsel : forall keep,
               _find_matching_text_blocks target_text
                 (List.filter keep text_blocks) context = []).
    { intros keep. apply find_matching_nil_filters.
      destruct H as (H1 & H2 & H3). repeat split.
      - now apply filter_filter_nil.
      - intros Ht. apply filter_filter_nil. now apply H2.
      - now apply filter_filter_nil. }
    rewrite (Hsel is_heading), (Hsel loose_heading_like). simpl.
    now apply find_matching_nil_filters.
Qed.

(** X5. A [modify_heading] request is dropped, the document left as it is,
    exactly when the matcher finds nothing in the whole block list: the
    two searches among headings can only fail before a last search
    that fails too. *)
Theorem heading_request_dropped_iff_no_match {D : DocumentModel}
    (client : LLMClient) (doc : Doc D) (edit_request : EditRequest)
    (text_blocks : list TextBlock) :
  is_empty
    (heading_matching_blocks (Py.strip (target_text edit_request))
       (context edit_request) text_blocks)
  = is_empty
      (_find_matching_text_blocks (Py.strip (target_text edit_request))
         text_blocks (context edit_request))
  /\ _apply_heading_modification client doc edit_request text_blocks
     = if is_empty
            (_find_matching_text_blocks (Py.strip (target_text edit_request))
               text_blocks (context edit_request))
       then Some doc
       else heading_loop doc
              (maybe_humanize client (replacement_text edit_request))
              (heading_matching_blocks (Py.strip (target_text edit_request))
                 (context edit_request) text_blocks).
Proof.
  assert (H : is_empty
                (heading_matching_blocks (Py.strip (target_text edit_request))
                   (context edit_request) text_blocks)
              = is_empty
                  (_find_matching_text_blocks
                     (Py.strip (target_text edit_request))
                     text_blocks (context edit_request))).
  { pose proof (heading_matching_nil_iff (Py.strip (target_text edit_request))
                  (context edit_request) text_blocks) as Hiff.
    destruct (heading_matching_blocks _ _ _) as [|b l];
      destruct (_find_matching_text_blocks _ _ _) as [|b' l'];
      simpl; try reflexivity.
    - destruct Hiff as [Hiff _]. discriminate (Hiff eq_refl).
    - destruct Hiff as [_ Hiff]. discriminate (Hiff eq_refl). }
  split; [exact H|].
  unfold _apply_heading_modification. now rewrite H.
Qed.

(** ** More on the fuzzy-match predicate *)

Lemma threshold_above_zero_ratio (n : nat) :
  Qle_bool (3 # 10) (ratio 0 n) = false
  /\ Qle_bool (5 # 10) (ratio 0 n) = false.
Proof.
  unfold ratio, Qdiv, Qle_bool, Qmult, Qnat. simpl.
  destruct (/ inject_Z (Z.of_nat n))%Q as [num den]. simpl.
  split; reflexivity.
Qed.

Lemma threshold_above_zero :
  Qle_bool (3 # 10) 0 = false /\ Qle_bool (5 # 10) 0 = false.
Proof. split; reflexivity. Qed.

(** X6. Without a substring match the predicate needs a shared word: when
    the target is not contained in the text, no word of the target
    occurs in the text and no word of the context does, the predicate
    is false, heading-like text or not. *)
Theorem fuzzy_match_needs_common_word
    (target text0 : string) (context : option string) :
  Py.contains (Py.lower target) (Py.lower text0) = false ->
  Py.set_inter_size (Py.split (Py.lower target)) (Py.split (Py.lower text0))
  = 0%nat ->
  match context with
  | Some c =>
      Py.set_inter_size (Py.split (Py.lower c)) (Py.split (Py.lower text0))
      = 0%nat
  | None => True
  end ->
  _fuzzy_match target text0 context = false.
Proof.
  intros Hsub Hwords Hctx. unfold _fuzzy_match. rewrite Hsub, Hwords.
  set (heading_like := (_ && _ && _)).
  assert (Hwo :
            forall q, q = (3 # 10) \/ q = (5 # 10) ->
              Qle_bool q
                match Py.split (Py.lower target) with
                | [] => 0%Q
                | _ :: _ => ratio 0 (Py.set_size (Py.split (Py.lower target)))
                end = false).
  { intros q [-> | ->]; destruct (Py.split (Py.lower target));
      solve [apply threshold_above_zero | apply threshold_above_zero_ratio]. }
  assert (Hcm :
            Qle_bool (3 # 10)
              match
                match context with
                | Some c => if Py.truthy c then Py.split (Py.lower c) else []
                | None => []
                end
              with
              | [] => 0%Q
              | _ :: _ =>
                  ratio
                    (Py.set_inter_size
                       match context with
                       | Some c =>
                           if Py.truthy c then Py.split (Py.lower c) else []
                       | None => []
                       end (Py.split (Py.lower text0)))
                    (Py.set_size
                       match context with
                       | Some c =>
                           if Py.truthy c then Py.split (Py.lower c) else []
                       | None => []
                       end)
              end = false).
  { destruct context as [c|]; [|reflexivity].
    destruct (Py.truthy c); [|reflexivity].
    rewrite Hctx.
    destruct (Py.split (Py.lower c));
      solve [apply threshold_above_zero | apply threshold_above_zero_ratio]. }
  destruct heading_like.
  - rewrite (Hwo (3 # 10)) by (left; reflexivity). rewrite Hcm. reflexivity.
  - rewrite (Hwo (5 # 10)) by (right; reflexivity). reflexivity.
Qed.

Lemma fuzzy_match_needs_common_word_witness :
  Py.contains (Py.lower "Revenue Table") (Py.lower "Executive Summary") = false
  /\ Py.set_inter_size (Py.split (Py.lower "Revenue Table"))
       (Py.split (Py.lower "Executive Summary")) = 0%nat
  /\ Py.set_inter_size (Py.split (Py.lower "finance section"))
       (Py.split (Py.lower "Executive Summary")) = 0%nat
  /\ _fuzzy_match "Revenue Table" "Executive Summary" (Some "finance section")
     = false.
Proof.
  assert (H1 : Py.contains (Py.lower "Revenue Table")
                 (Py.lower "Executive Summary") = false) by reflexivity.
  assert (H2 : Py.set_inter_size (Py.split (Py.lower "Revenue Table"))
                 (Py.split (Py.lower "Executive Summary")) = 0%nat)
    by reflexivity.
  assert (H3 : Py.set_inter_size (Py.split (Py.lower "finance section"))
                 (Py.split (Py.lower "Executive Summary")) = 0%nat)
    by reflexivity.
  split; [exact H1|]. split; [exact H2|]. split; [exact H3|].
  exact (fuzzy_match_needs_common_word "Revenue Table" "Executive Summary"
           (Some "finance section") H1 H2 H3).
Defined.

(** ** More on the AI-text heuristic and the humanizer *)

Lemma seems_ai_generated_no_indicator (t : string) :
  indicator_count t = 0%nat -> _seems_ai_generated (Some t) = false.
Proof.
  intros H. unfold _seems_ai_generated.
  destruct (negb (Py.truthy t)); [reflexivity|].
  rewrite ai_score_indicator_count, H. simpl. now rewrite andb_false_r.
Qed.

(** X7. A replacement text in which none of the indicator phrases occurs is
    used as it is, whatever its length: it is not humanized and the
    language model is not called for it. *)
Theorem plain_replacement_not_humanized (client : LLMClient) (t : string) :
  indicator_count t = 0%nat ->
  maybe_humanize client (Some t) = Some t.
Proof.
  intros H. unfold maybe_humanize.
  now rewrite (seems_ai_generated_no_indicator t H).
Qed.

Lemma plain_replacement_not_humanized_witness :
  indicator_count "Overview of the utilized methods" = 0%nat
  /\ maybe_humanize no_llm (Some "Overview of the utilized methods")
     = Some "Overview of the utilized methods".
Proof.
  assert (H : indicator_count "Overview of the utilized methods" = 0%nat)
    by reflexivity.
  split; [exact H|].
  exact (plain_replacement_not_humanized no_llm
           "Overview of the utilized methods" H).
Defined.

Lemma replace_from_absent (old new s : string) :
  Py.contains old s = false -> Py.replace_from old new 0 s = s.
Proof.
  induction s as [|c r IH]; [reflexivity|].
  cbn [Py.contains Py.replace_from]. intros H.
  apply orb_false_iff in H as [Hp Hc].
  rewrite Hp, (IH Hc). reflexivity.
Qed.

Lemma replace_absent (s old new : string) :
  Py.truthy old = true -> Py.contains old s = false ->
  Py.replace s old new = s.
Proof.
  intros Ht Hc. unfold Py.replace. rewrite Ht. now apply replace_from_absent.
Qed.

(** X8. The fallback humanizer returns unchanged a text that contains none
    of its five phrases and starts with neither of its two openings. *)
Theorem simple_humanize_identity (t : string) :
  Py.contains "utilize" t = false ->
  Py.contains "demonstrate" t = false ->
  Py.contains "furthermore" t = false ->
  Py.contains "in addition" t = false ->
  Py.contains "consequently" t = false ->
  Py.startswith t "The system" = false ->
  Py.startswith t "This approach" = false ->
  _simple_humanize t = t.
Proof.
  intros H1 H2 H3 H4 H5 H6 H7. unfold _simple_humanize.
  rewrite (replace_absent t "utilize" "use" eq_refl H1).
  rewrite (replace_absent t "demonstrate" "show" eq_refl H2).
  rewrite (replace_absent t "furthermore" "also" eq_refl H3).
  rewrite (replace_absent t "in addition" "plus" eq_refl H4).
  rewrite (replace_absent t "consequently" "so" eq_refl H5).
  now rewrite H6, H7.
Qed.

Lemma simple_humanize_identity_witness :
  let t := "Our results show a clear trend" in
  Py.contains "utilize" t = false
  /\ Py.contains "demonstrate" t = false
  /\ Py.contains "furthermore" t = false
  /\ Py.contains "in addition" t = false
  /\ Py.contains "consequently" t = false
  /\ Py.startswith t "The system" = false
  /\ Py.startswith t "This approach" = false
  /\ _simple_humanize t = t.
Proof.
  intros t. repeat (split; [reflexivity|]).
  apply (simple_humanize_identity t); reflexivity.
Defined.

Lemma replace_first_at_start (s old new : string) :
  Py.truthy old = true -> String.prefix old s = true ->
  Py.replace_first s old new
  = (new ++ Py.drop (String.length old) s)%string.
Proof.
  intros Ht Hp. unfold Py.replace_first.
  destruct s as [|c r].
  - destruct old; discriminate.
  - cbn [Py.replace_first_from]. now rewrite Hp.
Qed.

(** X9. The result of the fallback humanizer never starts with "The system"
    and never with "This approach": such an opening is always
    rewritten. *)
Theorem simple_humanize_rewrites_openings (t : string) :
  Py.startswith (_simple_humanize t) "The system" = false
  /\ Py.startswith (_simple_humanize t) "This approach" = false.
Proof.
  unfold _simple_humanize.
  set (t5 := Py.replace _ "consequently" "so").
  destruct (Py.startswith t5 "The system") eqn:E1.
  - unfold Py.startswith in E1.
    rewrite (replace_first_at_start t5 "The system" "This system" eq_refl E1).
    split; reflexivity.
  - destruct (Py.startswith t5 "This approach") eqn:E2.
    + unfold Py.startswith in E2.
      rewrite (replace_first_at_start t5 "This approach" "Our approach"
                 eq_refl E2).
      split; reflexivity.
    + split; assumption.
Qed.

(** ** Trimming *)

Lemma lstrip_head (s : string) :
  Py.lstrip s = EmptyString \/ head_not_blank (Py.lstrip s).
Proof.
  induction s as [|c r IH]; simpl; [now left|].
  destruct (Py.isspace c) eqn:E; [exact IH | right; exact E].
Qed.

Lemma lstrip_of_head_not_blank (s : string) :
  head_not_blank s -> Py.lstrip s = s.
Proof. destruct s as [|c r]; simpl; [tauto | now intros ->]. Qed.

Lemma rstrip_head_not_blank (s : string) :
  head_not_blank s -> head_not_blank (Py.rstrip s).
Proof.
  destruct s as [|c r]; simpl; [tauto|]. intros H.
  destruct (Py.rstrip r); simpl; [now rewrite H | exact H].
Qed.

Lemma rstrip_cons (c : ascii) (r : string) :
  Py.rstrip (String c r)
  = match Py.rstrip r with
    | EmptyString =>
        if Py.isspace c then EmptyString else String c EmptyString
    | String d r' => String c (String d r')
    end.
Proof. reflexivity. Qed.

Lemma rstrip_idem (s : string) : Py.rstrip (Py.rstrip s) = Py.rstrip s.
Proof.
  induction s as [|c r IH]; [reflexivity|].
  rewrite rstrip_cons. destruct (Py.rstrip r) as [|d r'] eqn:E.
  - destruct (Py.isspace c) eqn:Ec; [reflexivity|].
    rewrite rstrip_cons. simpl. now rewrite Ec.
  - rewrite rstrip_cons, IH. reflexivity.
Qed.

Lemma strip_head (s : string) :
  Py.strip s = EmptyString \/ head_not_blank (Py.strip s).
Proof.
  unfold Py.strip. destruct (lstrip_head s) as [-> | H].
  - now left.
  - right. now apply rstrip_head_not_blank.
Qed.

Lemma strip_idem (s : string) : Py.strip (Py.strip s) = Py.strip s.
Proof.
  destruct (strip_head s) as [-> | H]; [reflexivity|].
  unfold Py.strip at 1. rewrite (lstrip_of_head_not_blank _ H).
  unfold Py.strip. apply rstrip_idem.
Qed.

Lemma truthy_true_iff (s : string) : Py.truthy s = true <-> s <> EmptyString.
Proof. destruct s; simpl; split; congruence. Qed.

(** ** More on the heading classifier *)

(** X10. The classifier does not see blanks around the text: it gives the
    same answer on a text and on the text trimmed. *)
Theorem is_heading_ignores_surrounding_blanks (t : string) :
  _is_heading (Py.strip t) = _is_heading t.
Proof. unfold _is_heading. now rewrite strip_idem. Qed.

(** ** More on the extraction *)

(** X11. Every extracted block has a text that is not empty and is trimmed, a
    page number below the number of pages, and a font name. *)
Theorem extracted_block_well_formed (py : Interpreter) (doc : Document)
    (tb : TextBlock) :
  In tb (fst (extract_text_blocks py doc)) ->
  text tb <> EmptyString
  /\ Py.strip (text tb) = text tb
  /\ (page_num tb < List.length doc)%nat
  /\ font_name tb <> None.
Proof.
  intros H. apply in_extracted in H as (pn & page & span & Hp & _ & Hk & ->).
  unfold classified_block. simpl. repeat split.
  - now apply truthy_true_iff.
  - apply strip_idem.
  - now apply in_enumerate in Hp.
  - discriminate.
Qed.

Lemma extracted_block_well_formed_witness :
  let tb := mkTextBlock "see the notes, then continue" zero_bbox 0 14
              (Some "Times") true in
  In tb (fst (extract_text_blocks AddsLeftToRight two_block_doc))
  /\ text tb <> EmptyString
  /\ Py.strip (text tb) = text tb
  /\ (page_num tb < List.length two_block_doc)%nat
  /\ font_name tb <> None.
Proof.
  intros tb.
  assert (H : In tb (fst (extract_text_blocks AddsLeftToRight two_block_doc))).
  { vm_compute. left. reflexivity. }
  split; [exact H|].
  exact (extracted_block_well_formed AddsLeftToRight two_block_doc tb H).
Defined.

Lemma spaced_texts_app (l1 l2 : list TextBlock) :
  spaced_texts (l1 ++ l2) = (spaced_texts l1 ++ spaced_texts l2)%string.
Proof.
  induction l1 as [|b l1 IH]; simpl; [reflexivity|].
  now rewrite IH, !string_app_assoc.
Qed.

Lemma extract_span_snd (py : Interpreter) (blocks : PageDict) (page_num : nat)
    (st : ExtractState) (span : Span) :
  snd (extract_span py blocks page_num st span)
  = (snd st ++
     spaced_texts
       (List.map (classified_block (page_average py blocks) page_num)
                 (List.filter keeps_span [span])))%string.
Proof.
  destruct st as [tbs ft]. unfold extract_span. simpl.
  unfold keeps_span.
  destruct (Py.truthy (Py.strip (span_text span))); simpl.
  - reflexivity.
  - now rewrite string_app_nil_r.
Qed.

Lemma extract_line_snd (py : Interpreter) (blocks : PageDict) (page_num : nat)
    (line : Line) (st : ExtractState) :
  snd (extract_line py blocks page_num st line)
  = (snd st ++
     spaced_texts
       (List.map (classified_block (page_average py blocks) page_num)
                 (List.filter keeps_span line)))%string.
Proof.
  unfold extract_line. revert st.
  induction line as [|span line IH]; intros st.
  - simpl. now rewrite string_app_nil_r.
  - cbn [fold_left]. rewrite IH, extract_span_snd, string_app_assoc.
    f_equal. rewrite <- spaced_texts_app, <- List.map_app, <- List.filter_app.
    reflexivity.
Qed.

Lemma extract_lines_snd (py : Interpreter) (blocks : PageDict) (page_num : nat)
    (lines : list Line) (st : ExtractState) :
  snd (fold_left (extract_line py blocks page_num) lines st)
  = (snd st ++
     spaced_texts
       (List.map (classified_block (page_average py blocks) page_num)
                 (List.filter keeps_span (List.concat lines))))%string.
Proof.
  revert st. induction lines as [|line lines IH]; intros st.
  - simpl. now rewrite string_app_nil_r.
  - cbn [fold_left List.concat].
    rewrite IH, extract_line_snd, string_app_assoc, List.filter_app,
      List.map_app, spaced_texts_app.
    reflexivity.
Qed.

Lemma extract_blocks_snd (py : Interpreter) (page : PageDict) (page_num : nat)
    (blocks : list Block) (st : ExtractState) :
  snd (fold_left (extract_block py page page_num) blocks st)
  = (snd st ++
     spaced_texts
       (List.map (classified_block (page_average py page) page_num)
                 (List.filter keeps_span (page_spans blocks))))%string.
Proof.
  revert st. induction blocks as [|b blocks IH]; intros st.
  - simpl. now rewrite string_app_nil_r.
  - cbn [fold_left]. rewrite IH. unfold page_spans. cbn [flat_map].
    rewrite List.filter_app, List.map_app, spaced_texts_app,
      <- string_app_assoc.
    f_equal. destruct b as [|lines]; simpl.
    + now rewrite string_app_nil_r.
    + apply extract_lines_snd.
Qed.

Lemma extract_pages_snd (py : Interpreter) (pages : list (nat * PageDict))
    (st : ExtractState) :
  snd (fold_left (extract_page py) pages st)
  = (snd st ++ spaced_texts (flat_map (page_text_blocks py) pages))%string.
Proof.
  revert st. induction pages as [|[pn page] pages IH]; intros st.
  - simpl. now rewrite string_app_nil_r.
  - cbn [fold_left flat_map].
    rewrite IH, spaced_texts_app, <- string_app_assoc. f_equal.
    unfold extract_page. apply extract_blocks_snd.
Qed.

Lemma full_text_spaced (py : Interpreter) (doc : Document) :
  snd (extract_text_blocks py doc)
  = Py.strip (spaced_texts (fst (extract_text_blocks py doc))).
Proof.
  rewrite extract_text_blocks_by_page. unfold extract_text_blocks.
  pose proof (extract_pages_snd py (enumerate doc) ([], EmptyString)) as H.
  destruct (fold_left (extract_page py) (enumerate doc) ([], EmptyString))
    as [tbs ft].
  simpl in *. now rewrite H.
Qed.

Lemma rstrip_app_blank (s : string) :
  Py.rstrip (s ++ " ") = Py.rstrip s.
Proof.
  induction s as [|c r IH]; [reflexivity|].
  simpl append. now rewrite !rstrip_cons, IH.
Qed.

Lemma rstrip_app_kept (a b : string) :
  Py.rstrip b <> EmptyString ->
  Py.rstrip (a ++ b) = (a ++ Py.rstrip b)%string.
Proof.
  intros Hb. induction a as [|c a IH]; [reflexivity|].
  simpl append. rewrite rstrip_cons, IH.
  destruct (a ++ Py.rstrip b)%string as [|d r] eqn:E; [|reflexivity].
  destruct a; simpl in E; [contradiction | discriminate].
Qed.

(** A text as the extraction keeps it: it does not start with a blank
    and trimming at the right leaves it as it is. *)
Lemma rstrip_spaced_texts (l : list TextBlock) :
  Forall (fun b => head_not_blank (text b) /\ Py.rstrip (text b) = text b) l ->
  Py.rstrip (spaced_texts l) = String.concat " " (List.map text l).
Proof.
  induction l as [|b l IH]; intros H; [reflexivity|].
  inversion H as [|b0 l0 [Hhead Hr] Hl]; subst.
  destruct l as [|b' l'].
  - simpl. rewrite rstrip_app_blank. exact Hr.
  - cbn [spaced_texts fold_right] in *. cbn [List.map String.concat] in *.
    specialize (IH Hl).
    rewrite <- string_app_assoc, rstrip_app_kept.
    + rewrite IH, string_app_assoc. reflexivity.
    + rewrite IH. inversion Hl as [|b1 l1 [Hhead' _] _]; subst.
      destruct (text b'); [destruct Hhead'|].
      destruct l'; simpl; discriminate.
Qed.

Lemma strip_spaced_texts (l : list TextBlock) :
  Forall (fun b => head_not_blank (text b) /\ Py.rstrip (text b) = text b) l ->
  Py.strip (spaced_texts l) = String.concat " " (List.map text l).
Proof.
  intros H. unfold Py.strip.
  destruct l as [|b l]; [reflexivity|].
  rewrite lstrip_of_head_not_blank; [now apply rstrip_spaced_texts|].
  inversion H as [|b0 l0 [Hhead _] _]; subst.
  simpl. destruct (text b); [destruct Hhead | exact Hhead].
Qed.

Lemma extracted_texts_trimmed (py : Interpreter) (doc : Document) :
  Forall (fun b => head_not_blank (text b) /\ Py.rstrip (text b) = text b)
         (fst (extract_text_blocks py doc)).
Proof.
  apply List.Forall_forall. intros tb H.
  apply in_extracted in H as (pn & page & span & _ & _ & Hk & ->).
  unfold classified_block, keeps_span in *. simpl. split.
  - destruct (strip_head (span_text span)) as [E | Hh]; [|exact Hh].
    rewrite E in Hk. discriminate Hk.
  - unfold Py.strip. apply rstrip_idem.
Qed.

(** X12. The full text returned with the blocks is the texts of the blocks,
    in order, joined by single blanks. *)
Theorem full_text_joins_block_texts (py : Interpreter) (doc : Document) :
  snd (extract_text_blocks py doc)
  = String.concat " " (List.map text (fst (extract_text_blocks py doc))).
Proof.
  rewrite full_text_spaced. apply strip_spaced_texts.
  apply extracted_texts_trimmed.
Qed.

(** ** Soundness of the pattern matcher *)

Lemma string_length_app (a b : string) :
  String.length (a ++ b) = (String.length a + String.length b)%nat.
Proof. induction a as [|c a IH]; simpl; [reflexivity | now rewrite IH]. Qed.

Lemma take_app_length (m rest : string) :
  Py.take (String.length m) (m ++ rest) = m.
Proof. induction m as [|c m IH]; simpl; [now destruct rest | now rewrite IH]. Qed.

Lemma occurs_ci_refl_lower (w m : string) :
  Py.lower m = Py.lower w -> occurs_ci w m.
Proof. intros H. unfold occurs_ci. rewrite H. apply contains_refl. Qed.

Lemma occurs_ci_app_l (w a b : string) : occurs_ci w a -> occurs_ci w (a ++ b).
Proof.
  unfold occurs_ci. rewrite lower_app, !contains_iff.
  intros (pre & post & ->). exists pre, (post ++ Py.lower b)%string.
  now rewrite !string_app_assoc.
Qed.

Lemma occurs_ci_app_r (w a b : string) : occurs_ci w b -> occurs_ci w (a ++ b).
Proof.
  unfold occurs_ci. rewrite lower_app, !contains_iff.
  intros (pre & post & ->). exists (Py.lower a ++ pre)%string, post.
  now rewrite !string_app_assoc.
Qed.

Lemma match_lit_sound (lit : string) (idx : nat) (rest : string)
    (idx' : nat) (rest' : string) :
  Re.match_lit lit idx rest = Some (idx', rest') ->
  exists m, rest = (m ++ rest')%string
            /\ idx' = (idx + String.length m)%nat
            /\ String.length m = String.length lit
            /\ Py.lower m = Py.lower lit.
Proof.
  revert idx rest. induction lit as [|a lit IH]; intros idx rest; simpl.
  - intros [= <- <-]. exists EmptyString. simpl. auto with arith.
  - destruct rest as [|c rest]; [discriminate|].
    destruct (Ascii.eqb (Py.lower_char a) (Py.lower_char c)) eqn:E;
      [|discriminate].
    apply Ascii.eqb_eq in E. intros H.
    apply IH in H as (m & -> & -> & Hl & Hlow).
    exists (String c m). simpl. rewrite Hl, Hlow, E.
    repeat split; auto; lia.
Qed.

Lemma rep_greedy_sound (cs : Re.CharSet) (rest : string) :
  forall min idx g k res,
    Re.rep_greedy cs min idx rest g k = Some res ->
    exists m rest', rest = (m ++ rest')%string
                    /\ (min <= String.length m)%nat
                    /\ k (idx + String.length m)%nat rest' g = Some res.
Proof.
  induction rest as [|c rest IH]; intros min idx g k res; cbn [Re.rep_greedy].
  - destruct min; [|discriminate]. intros H.
    exists EmptyString, EmptyString. simpl. rewrite Nat.add_0_r. auto.
  - assert (Hstop :
              match min with O => k idx (String c rest) g | S _ => None end
              = Some res ->
              exists m rest', String c rest = (m ++ rest')%string
                              /\ (min <= String.length m)%nat
                              /\ k (idx + String.length m)%nat rest' g = Some res).
    { destruct min; [|discriminate]. intros H.
      exists EmptyString, (String c rest). simpl. rewrite Nat.add_0_r. auto. }
    destruct (Re.in_set cs c); [|exact Hstop].
    destruct (Re.rep_greedy cs (Nat.pred min) (S idx) rest g k) as [m0|] eqn:E;
      [|exact Hstop].
    intros [= <-]. apply IH in E as (m & rest' & -> & Hmin & Hk).
    exists (String c m), rest'. simpl.
    rewrite <- Nat.add_succ_comm. repeat split; auto; lia.
Qed.

Lemma rep_lazy_sound (cs : Re.CharSet) (rest : string) :
  forall min idx g k res,
    Re.rep_lazy cs min idx rest g k = Some res ->
    exists m rest', rest = (m ++ rest')%string
                    /\ (min <= String.length m)%nat
                    /\ k (idx + String.length m)%nat rest' g = Some res.
Proof.
  induction rest as [|c rest IH]; intros min idx g k res; cbn [Re.rep_lazy].
  - destruct min; [|discriminate].
    destruct (k idx EmptyString g) eqn:E; [|discriminate].
    intros [= <-]. exists EmptyString, EmptyString. simpl.
    rewrite Nat.add_0_r. auto.
  - assert (Hmore :
              (if Re.in_set cs c
               then Re.rep_lazy cs (Nat.pred min) (S idx) rest g k
               else None) = Some res ->
              exists m rest', String c rest = (m ++ rest')%string
                              /\ (min <= String.length m)%nat
                              /\ k (idx + String.length m)%nat rest' g = Some res).
    { destruct (Re.in_set cs c); [|discriminate]. intros H.
      apply IH in H as (m & rest' & -> & Hmin & Hk).
      exists (String c m), rest'. simpl.
      rewrite <- Nat.add_succ_comm. repeat split; auto; lia. }
    destruct min; [|exact Hmore].
    destruct (k idx (String c rest) g) eqn:E; [|exact Hmore].
    intros [= <-]. exists EmptyString, (String c rest). simpl.
    rewrite Nat.add_0_r. auto with arith.
Qed.

Lemma all_not_empty_nil : all_not_empty [].
Proof. intros n s []. Qed.

Lemma all_not_empty_app (g1 g2 : Re.Groups) :
  all_not_empty g1 -> all_not_empty g2 -> all_not_empty (g1 ++ g2).
Proof.
  intros H1 H2 n s H. apply in_app_or in H as [H | H]; eauto.
Qed.

Lemma has_group_app_l (n : nat) (g1 g2 : Re.Groups) :
  has_group n g1 -> has_group n (g1 ++ g2).
Proof. intros [s H]. exists s. apply in_or_app. now left. Qed.

Lemma has_group_app_r (n : nat) (g1 g2 : Re.Groups) :
  has_group n g2 -> has_group n (g1 ++ g2).
Proof. intros [s H]. exists s. apply in_or_app. now right. Qed.

(** A step that takes no character and sets no group. *)
Ltac empty_match rest H :=
  exists EmptyString, rest, (@nil (nat * string)); simpl;
  rewrite Nat.add_0_r;
  repeat split;
  [ exact H | lia | intros ? [] | intros ? [] | intros _; apply all_not_empty_nil ].

(** Whenever a pattern matches, what remains to be matched was called
    after the pattern took some text [m] from the input: at least
    [min_len r] characters, in which the literals of the pattern occur;
    the groups the pattern always sets were added, none of them empty
    when the pattern cannot capture the empty text. *)
Lemma run_sound (r : Re.Regex) :
  forall idx rest g k res,
    Re.run r idx rest g k = Some res ->
    exists m rest' added,
      rest = (m ++ rest')%string
      /\ k (idx + String.length m)%nat rest' (added ++ g) = Some res
      /\ (min_len r <= String.length m)%nat
      /\ (forall w, In w (mentions r) -> occurs_ci w m)
      /\ (forall n, In n (sets_groups r) -> has_group n added)
      /\ (groups_not_empty r = true -> all_not_empty added).
Proof.
  induction r as [s | cs | cs min greedy | r1 IH1 | r1 IH1 r2 IH2
                 | r1 IH1 r2 IH2 | n r1 IH1 | | ];
    intros idx rest g k res; cbn [Re.run].
  - (* Lit *)
    destruct (Re.match_lit s idx rest) as [[idx' rest']|] eqn:E; [|discriminate].
    intros H. apply match_lit_sound in E as (m & -> & -> & Hl & Hlow).
    exists m, rest', []. simpl. repeat split.
    + exact H.
    + lia.
    + intros w [<- | []]. now apply occurs_ci_refl_lower.
    + intros ? [].
    + intros _. apply all_not_empty_nil.
  - (* One *)
    destruct rest as [|c rest]; [discriminate|].
    destruct (Re.in_set cs c); [|discriminate]. intros H.
    exists (String c EmptyString), rest, []. simpl. rewrite Nat.add_1_r.
    repeat split.
    + exact H.
    + lia.
    + intros ? [].
    + intros ? [].
    + intros _. apply all_not_empty_nil.
  - (* Rep *)
    intros H.
    assert (Hs : exists m rest', rest = (m ++ rest')%string
                   /\ (min <= String.length m)%nat
                   /\ k (idx + String.length m)%nat rest' g = Some res).
    { destruct greedy; [now apply rep_greedy_sound in H
                       | now apply rep_lazy_sound in H]. }
    destruct Hs as (m & rest' & -> & Hmin & Hk).
    exists m, rest', []. simpl. repeat split.
    + exact Hk.
    + exact Hmin.
    + intros ? [].
    + intros ? [].
    + intros _. apply all_not_empty_nil.
  - (* Opt *)
    destruct (Re.run r1 idx rest g k) as [m0|] eqn:E.
    + intros [= <-].
      apply IH1 in E as (m & rest' & added & -> & Hk & _ & _ & _ & Hne).
      exists m, rest', added. simpl. repeat split.
      * exact Hk.
      * lia.
      * intros ? [].
      * intros ? [].
      * exact Hne.
    + intros H. empty_match rest H.
  - (* Alt *)
    assert (Hboth : forall r0,
              (forall idx rest g k res,
                  Re.run r0 idx rest g k = Some res ->
                  exists m rest' added,
                    rest = (m ++ rest')%string
                    /\ k (idx + String.length m)%nat rest' (added ++ g) = Some res
                    /\ (min_len r0 <= String.length m)%nat
                    /\ (forall w, In w (mentions r0) -> occurs_ci w m)
                    /\ (forall n, In n (sets_groups r0) -> has_group n added)
                    /\ (groups_not_empty r0 = true -> all_not_empty added)) ->
              groups_not_empty r0 = true \/ groups_not_empty (Re.Alt r1 r2) = false ->
              (Nat.min (min_len r1) (min_len r2) <= min_len r0)%nat ->
              Re.run r0 idx rest g k = Some res ->
              exists m rest' added,
                rest = (m ++ rest')%string
                /\ k (idx + String.length m)%nat rest' (added ++ g) = Some res
                /\ (Nat.min (min_len r1) (min_len r2) <= String.length m)%nat
                /\ (forall w, In w [] -> occurs_ci w m)
                /\ (forall n : nat, In n [] -> has_group n added)
                /\ (groups_not_empty (Re.Alt r1 r2) = true -> all_not_empty added)).
    { intros r0 IH Hsafe Hmin E.
      apply IH in E as (m & rest' & added & -> & Hk & Hm & _ & _ & Hne).
      exists m, rest', added. repeat split.
      - exact Hk.
      - lia.
      - intros ? [].
      - intros ? [].
      - intros Hg. destruct Hsafe as [Hs | Hs]; [now apply Hne | congruence]. }
    destruct (Re.run r1 idx rest g k) as [m0|] eqn:E.
    + intros [= <-]. apply (Hboth r1 IH1); [| lia | exact E].
      simpl. destruct (groups_not_empty r1); [now left | now right].
    + intros H. apply (Hboth r2 IH2); [| lia | exact H].
      simpl. destruct (groups_not_empty r2); [now left|].
      right. apply andb_false_r.
  - (* Seq *)
    intros H.
    apply IH1 in H as (m1 & rest1 & added1 & -> & H & Hmin1 & Hw1 & Hs1 & Hne1).
    cbv beta in H.
    apply IH2 in H as (m2 & rest2 & added2 & -> & H & Hmin2 & Hw2 & Hs2 & Hne2).
    exists (m1 ++ m2)%string, rest2, (added2 ++ added1). simpl.
    repeat split.
    + symmetry. apply string_app_assoc.
    + rewrite string_length_app, Nat.add_assoc, <- app_assoc. exact H.
    + rewrite string_length_app. lia.
    + intros w Hw. apply in_app_or in Hw as [Hw | Hw].
      * apply occurs_ci_app_l. now apply Hw1.
      * apply occurs_ci_app_r. now apply Hw2.
    + intros n Hn. apply in_app_or in Hn as [Hn | Hn].
      * apply has_group_app_r. now apply Hs1.
      * apply has_group_app_l. now apply Hs2.
    + intros Hg. apply andb_prop in Hg as [Hg1 Hg2].
      apply all_not_empty_app; auto.
  - (* Group *)
    intros H.
    apply IH1 in H as (m & rest' & added & -> & H & Hmin & Hw & Hs & Hne).
    cbv beta in H.
    replace (idx + String.length m - idx)%nat with (String.length m) in H by lia.
    rewrite take_app_length in H.
    exists m, rest', ((n, m) :: added). simpl. repeat split.
    + exact H.
    + exact Hmin.
    + exact Hw.
    + intros n0 [<- | Hn].
      * exists m. now left.
      * destruct (Hs n0 Hn) as [s Hin]. exists s. now right.
    + intros Hg. apply andb_prop in Hg as [Hg1 Hg2].
      intros n0 s [[= <- <-] | Hin].
      * destruct m; [|discriminate].
        simpl in Hmin. destruct (min_len r1); [discriminate Hg1 | lia].
      * now apply (Hne Hg2 n0 s).
  - (* Bol *)
    destruct (idx =? 0)%nat; [|discriminate]. intros H. empty_match rest H.
  - (* Eol *)
    destruct rest as [|c [|d rest]].
    + intros H. empty_match EmptyString H.
    + destruct (Ascii.eqb c Re.newline); [|discriminate].
      intros H. empty_match (String c EmptyString) H.
    + discriminate.
Qed.

Lemma match_facts_suffix (r : Re.Regex) (pre s : string) (g : Re.Groups) :
  match_facts r s g -> match_facts r (pre ++ s) g.
Proof.
  intros (Hs & Hne & Hw). repeat split; auto.
  intros w Hin. apply occurs_ci_app_r. now apply Hw.
Qed.

Lemma match_at_facts (r : Re.Regex) (idx : nat) (rest : string)
    (g : Re.Groups) (e : nat) :
  Re.match_at r idx rest = Some (g, e) -> match_facts r rest g.
Proof.
  unfold Re.match_at. intros H.
  apply run_sound in H as (m & rest' & added & -> & H & _ & Hw & Hs & Hne).
  rewrite app_nil_r in H. injection H as <- _.
  repeat split; auto.
  intros w Hin. apply occurs_ci_app_l. now apply Hw.
Qed.

Lemma finditer_from_facts (r : Re.Regex) (rest : string) :
  forall skip idx g,
    In g (Re.finditer_from r skip idx rest) ->
    exists pre rest0, rest = (pre ++ rest0)%string /\ match_facts r rest0 g.
Proof.
  induction rest as [|c rest IH]; intros skip idx g; cbn [Re.finditer_from].
  - destruct skip; [|intros []].
    destruct (Re.match_at r idx EmptyString) as [[g0 e]|] eqn:E; [|intros []].
    intros [<- | []]. exists EmptyString, EmptyString.
    split; [reflexivity | now apply match_at_facts in E].
  - assert (Htail : forall skip' idx',
               In g (Re.finditer_from r skip' idx' rest) ->
               exists pre rest0,
                 String c rest = (pre ++ rest0)%string /\ match_facts r rest0 g).
    { intros skip' idx' H. apply IH in H as (pre & rest0 & -> & Hf).
      exists (String c pre), rest0. split; [reflexivity | exact Hf]. }
    destruct skip as [|k]; [|apply Htail].
    destruct (Re.match_at r idx (String c rest)) as [[g0 e]|] eqn:E;
      [|apply Htail].
    intros [<- | H]; [|now apply Htail in H].
    exists EmptyString, (String c rest).
    split; [reflexivity | now apply match_at_facts in E].
Qed.

(** Every match [re.finditer] returns sets the groups its pattern always
    sets, none of them empty when the pattern excludes it, and lies in
    a text in which the literals of the pattern occur. *)
Lemma finditer_facts (r : Re.Regex) (s : string) (g : Re.Groups) :
  In g (Re.finditer r s) -> match_facts r s g.
Proof.
  unfold Re.finditer. intros H.
  apply finditer_from_facts in H as (pre & rest0 & -> & Hf).
  now apply match_facts_suffix.
Qed.

Lemma group_not_empty (n : nat) (g : Re.Groups) :
  has_group n g -> all_not_empty g -> Re.group n g <> EmptyString.
Proof.
  induction g as [|[m s] g IH]; intros [s0 Hin] Hne; [destruct Hin|].
  simpl. destruct (m =? n)%nat eqn:E.
  - apply (Hne m s). now left.
  - apply IH.
    + destruct Hin as [[= -> _] | Hin].
      * rewrite Nat.eqb_refl in E. discriminate E.
      * now exists s0.
    + intros n' s' H. apply (Hne n' s'). now right.
Qed.

Lemma read_group_not_empty (groups : list nat) (r : Re.Regex) (s : string)
    (g : Re.Groups) (n : nat) :
  reads_set_groups groups r = true ->
  In g (Re.finditer r s) -> In n groups ->
  Re.group n g <> EmptyString.
Proof.
  unfold reads_set_groups. intros H Hg Hn.
  apply andb_prop in H as [Hne Hsets].
  apply finditer_facts in Hg as (Hs & Hall & _).
  apply group_not_empty; [|now apply Hall].
  apply Hs. rewrite forallb_forall in Hsets. specialize (Hsets n Hn).
  apply existsb_exists in Hsets as (n' & Hin & E).
  apply Nat.eqb_eq in E. now subst.
Qed.

Lemma fold_app_flat_map {A B} (f : A -> list B) (l : list A) (init : list B) :
  fold_left (fun acc x => acc ++ f x) l init = init ++ flat_map f l.
Proof.
  revert init. induction l as [|x l IH]; intros init; simpl.
  - now rewrite app_nil_r.
  - now rewrite IH, app_assoc.
Qed.

Lemma rule_based_parsing_families (prompt : string) :
  _rule_based_parsing prompt
  = flat_map (fun r => replace_edits r prompt) replace_patterns
    ++ flat_map (fun r => highlight_edits r prompt) highlight_patterns
    ++ flat_map (fun r => heading_edits r prompt) heading_patterns.
Proof.
  unfold _rule_based_parsing. rewrite !fold_app_flat_map. cbn [app].
  now rewrite <- app_assoc.
Qed.

Lemma patterns_read_set_groups :
  forallb replace_pattern_ok replace_patterns = true
  /\ forallb (reads_set_groups [1]%nat) highlight_patterns = true
  /\ forallb (reads_set_groups [1; 2]%nat) heading_patterns = true.
Proof. vm_compute. repeat split. Qed.

Lemma patterns_need_keyword :
  forallb needs_keyword
    (replace_patterns ++ highlight_patterns ++ heading_patterns) = true.
Proof. vm_compute. reflexivity. Qed.

(** ** Properties of the rule-based parser *)

(** X14. Every request of the rule-based parser is well formed: its target
    is not empty; a [replace] request has a replacement, not empty, and
    a context that is not empty when it has one; a [highlight] request
    has neither replacement nor context; a [modify_heading] request has
    a replacement, not empty, and no context. *)
Theorem rule_based_requests_well_formed (prompt : string) (e : EditRequest) :
  In e (_rule_based_parsing prompt) ->
  target_text e <> EmptyString
  /\ ((action e = "replace"
       /\ (exists r, replacement_text e = Some r /\ r <> EmptyString)
       /\ (forall c, context e = Some c -> c <> EmptyString))
      \/ (action e = "highlight"
          /\ replacement_text e = None /\ context e = None)
      \/ (action e = "modify_heading"
          /\ (exists r, replacement_text e = Some r /\ r <> EmptyString)
          /\ context e = None)).
Proof.
  destruct patterns_read_set_groups as (Hrep & Hhl & Hhd).
  rewrite rule_based_parsing_families. intros H.
  apply in_app_or in H as [H | H]; [|apply in_app_or in H as [H | H]].
  - apply in_flat_map in H as (r & Hr & He).
    rewrite forallb_forall in Hrep. specialize (Hrep r Hr).
    unfold replace_edits in He. apply in_flat_map in He as (m & Hm & He).
    unfold replace_pattern_ok in Hrep.
    destruct (Re.group_count r =? 2)%nat.
    + destruct He as [<- | []]. simpl. split.
      * apply (read_group_not_empty [1; 2]%nat r prompt m 1 Hrep Hm).
        simpl. auto.
      * left. repeat split; [|discriminate].
        eexists. split; [reflexivity|].
        apply (read_group_not_empty [1; 2]%nat r prompt m 2 Hrep Hm).
        simpl. auto.
    + destruct (Re.group_count r =? 3)%nat; [|destruct He].
      destruct He as [<- | []]. simpl. split.
      * apply (read_group_not_empty [1; 2; 3]%nat r prompt m 2 Hrep Hm).
        simpl. auto.
      * left. repeat split.
        -- eexists. split; [reflexivity|].
           apply (read_group_not_empty [1; 2; 3]%nat r prompt m 3 Hrep Hm).
           simpl. auto.
        -- intros c [= <-].
           apply (read_group_not_empty [1; 2; 3]%nat r prompt m 1 Hrep Hm).
           simpl. auto.
  - apply in_flat_map in H as (r & Hr & He).
    rewrite forallb_forall in Hhl. specialize (Hhl r Hr).
    unfold highlight_edits in He. apply in_map_iff in He as (m & <- & Hm).
    simpl. split.
    + apply (read_group_not_empty [1]%nat r prompt m 1 Hhl Hm). simpl. auto.
    + right. left. auto.
  - apply in_flat_map in H as (r & Hr & He).
    rewrite forallb_forall in Hhd. specialize (Hhd r Hr).
    unfold heading_edits in He. apply in_map_iff in He as (m & <- & Hm).
    simpl. split.
    + apply (read_group_not_empty [1; 2]%nat r prompt m 1 Hhd Hm). simpl. auto.
    + right. right. repeat split.
      eexists. split; [reflexivity|].
      apply (read_group_not_empty [1; 2]%nat r prompt m 2 Hhd Hm). simpl. auto.
Qed.

Lemma rule_based_requests_well_formed_witness :
  let e := mkEditRequest "replace" "a b" (Some "c d") (Some "summary") in
  let prompt := "In the summary, change 'a b' to 'c d'" in
  In e (_rule_based_parsing prompt)
  /\ target_text e <> EmptyString
  /\ ((action e = "replace"
       /\ (exists r, replacement_text e = Some r /\ r <> EmptyString)
       /\ (forall c, context e = Some c -> c <> EmptyString))
      \/ (action e = "highlight"
          /\ replacement_text e = None /\ context e = None)
      \/ (action e = "modify_heading"
          /\ (exists r, replacement_text e = Some r /\ r <> EmptyString)
          /\ context e = None)).
Proof.
  intros e prompt.
  assert (H : In e (_rule_based_parsing prompt)).
  { vm_compute. right. left. reflexivity. }
  split; [exact H|].
  exact (rule_based_requests_well_formed prompt e H).
Defined.

Lemma flat_map_all_nil {A B} (f : A -> list B) (l : list A) :
  (forall x, In x l -> f x = []) -> flat_map f l = [].
Proof.
  induction l as [|x l IH]; intros H; simpl; [reflexivity|].
  rewrite (H x) by now left. apply IH. intros y Hy. apply H. now right.
Qed.

Lemma finditer_without_keyword (r : Re.Regex) (prompt : string) :
  needs_keyword r = true ->
  existsb (fun kw => Py.contains kw (Py.lower prompt)) parser_keywords = false ->
  Re.finditer r prompt = [].
Proof.
  intros Hneeds Hnone.
  destruct (Re.finditer r prompt) as [|g l] eqn:E; [reflexivity|].
  assert (Hg : In g (Re.finditer r prompt)) by (rewrite E; now left).
  apply finditer_facts in Hg as (_ & _ & Hw).
  unfold needs_keyword in Hneeds.
  apply existsb_exists in Hneeds as (w & Hin & Hkw).
  apply existsb_exists in Hkw as (kw & Hkin & Hc).
  specialize (Hw w Hin). unfold occurs_ci in Hw.
  assert (Hfound : existsb (fun kw => Py.contains kw (Py.lower prompt))
                     parser_keywords = true).
  { apply existsb_exists. exists kw. split; [exact Hkin|].
    now apply (contains_trans kw (Py.lower w)). }
  congruence.
Qed.

(** X15. A prompt of characters below 128 in which none of the words
    change, replace, highlight, mark, emphasize, title and heading
    occurs, in any case, yields no request.  (On such a prompt the
    comparison of the pattern matcher is the one of [re.IGNORECASE].) *)
Theorem rule_based_needs_keyword (prompt : string) :
  isascii prompt = true ->
  existsb (fun kw => Py.contains kw (Py.lower prompt)) parser_keywords = false ->
  _rule_based_parsing prompt = [].
Proof.
  intros _ Hnone.
  pose proof patterns_need_keyword as Hall.
  rewrite forallb_forall in Hall.
  assert (Hfind : forall r,
             In r (replace_patterns ++ highlight_patterns ++ heading_patterns) ->
             Re.finditer r prompt = []).
  { intros r Hr. apply finditer_without_keyword; auto. }
  rewrite rule_based_parsing_families.
  rewrite !flat_map_all_nil; [reflexivity | | |].
  - intros r Hr. unfold heading_edits. rewrite Hfind; [reflexivity|].
    apply in_or_app. right. apply in_or_app. now right.
  - intros r Hr. unfold highlight_edits. rewrite Hfind; [reflexivity|].
    apply in_or_app. right. apply in_or_app. now left.
  - intros r Hr. unfold replace_edits. rewrite Hfind; [reflexivity|].
    apply in_or_app. now left.
Qed.

Lemma rule_based_needs_keyword_witness :
  isascii "Please make the summary shorter" = true
  /\ existsb
       (fun kw => Py.contains kw (Py.lower "Please make the summary shorter"))
       parser_keywords = false
  /\ _rule_based_parsing "Please make the summary shorter" = [].
Proof.
  assert (Ha : isascii "Please make the summary shorter" = true)
    by reflexivity.
  assert (H : existsb
                (fun kw =>
                   Py.contains kw (Py.lower "Please make the summary shorter"))
                parser_keywords = false) by reflexivity.
  split; [exact Ha|]. split; [exact H|].
  exact (rule_based_needs_keyword "Please make the summary shorter" Ha H).
Defined.

(** ** Properties of the edit applicator *)

Section ApplicatorFacts.

Context {D : DocumentModel}.

Lemma try_fallback_fonts_none (doc : Doc D) (page : nat) (point : float * float)
    (replacement_text : option string) (fontsize : float) (fonts : list string) :
  try_fallback_fonts doc page point replacement_text fontsize fonts = None
  <-> forall f, In f fonts ->
        insert_text doc page point replacement_text fontsize (Some f) = None.
Proof.
  induction fonts as [|f0 fonts IH]; simpl.
  - split; [intros _ f [] | reflexivity].
  - destruct (insert_text doc page point replacement_text fontsize (Some f0))
      as [d|] eqn:E.
    + split; [discriminate|]. intros H.
      specialize (H f0 (or_introl eq_refl)). congruence.
    + rewrite IH. split.
      * intros H f [<- | Hf]; auto.
      * intros H f Hf. apply H. now right.
Qed.

(** X16. The insertion of a replacement text raises only when every attempt
    fails: with the font of the block, with each of the five fallback
    fonts at the size of the block, and with no font name at size 12. *)
Theorem insertion_fails_iff_every_attempt_fails
    (doc : Doc D) (page : nat) (point : float * float)
    (replacement_text : option string) (fontsize : float)
    (fontname : option string) :
  insert_with_fallbacks doc page point replacement_text fontsize fontname = None
  <-> insert_text doc page point replacement_text fontsize fontname = None
      /\ (forall f, In f ["helv"; "times"; "cour"; "Helvetica"; "Times-Roman"] ->
            insert_text doc page point replacement_text fontsize (Some f) = None)
      /\ insert_text doc page point replacement_text 12 None = None.
Proof.
  unfold insert_with_fallbacks.
  destruct (insert_text doc page point replacement_text fontsize fontname)
    as [d|] eqn:E.
  - split; [discriminate | intros [H _]; discriminate H].
  - destruct (try_fallback_fonts doc page point replacement_text fontsize
                fallback_fonts) as [d|] eqn:F.
    + split; [discriminate|]. intros (_ & H & _).
      apply (proj2 (try_fallback_fonts_none doc page point replacement_text
                      fontsize fallback_fonts)) in H.
      congruence.
    + pose proof (proj1 (try_fallback_fonts_none doc page point
                           replacement_text fontsize fallback_fonts) F) as HF.
      split; [intros Hlast; repeat split; assumption | tauto].
Qed.

(** X17. The requests of a list are applied in order, each to the document
    the earlier ones left; when one raises, the later ones are not
    applied and there is no resulting document. *)
Theorem apply_requests_in_sequence
    (client : LLMClient) (doc : Doc D)
    (first later : list EditRequest) (text_blocks : list TextBlock) :
  apply_requests client doc (first ++ later) text_blocks
  = match apply_requests client doc first text_blocks with
    | Some doc' => apply_requests client doc' later text_blocks
    | None => None
    end.
Proof.
  revert doc. induction first as [|r first IH]; intros doc; [reflexivity|].
  cbn [app apply_requests].
  destruct (if String.eqb (action r) "replace"
            then _apply_text_replacement client doc r text_blocks
            else if String.eqb (action r) "highlight"
                 then _apply_highlight doc r text_blocks
                 else if String.eqb (action r) "modify_heading"
                      then _apply_heading_modification client doc r text_blocks
                      else Some doc) as [doc'|]; [apply IH | reflexivity].
Qed.

(** X18. A highlight request is resolved without its context: the blocks
    highlighted are those of the exact or substring stage or, when
    there is none, those of the word-overlap stage; the fuzzy stage is
    not used. *)
Theorem highlight_uses_no_context
    (doc : Doc D) (edit_request : EditRequest) (text_blocks : list TextBlock) :
  let target := Py.strip (target_text edit_request) in
  _apply_highlight doc edit_request text_blocks
  = Some (fold_left
            (fun doc block =>
               add_highlight_annot doc (page_num block) (bbox block))
            (if negb (is_empty (stage1 target text_blocks))
             then stage1 target text_blocks
             else stage3 target text_blocks)
            doc).
Proof.
  intros target. unfold _apply_highlight. fold target.
  rewrite find_matching_filters. cbv zeta.
  unfold stage1, stage3.
  rewrite exact_loop_filter, partial_loop_filter. simpl.
  reflexivity.
Qed.

(** X19. A request whose target is blank applies to every block: a replace
    request rewrites all of them, a highlight request highlights all of
    them. *)
Theorem blank_target_edits_every_block
    (client : LLMClient) (doc : Doc D) (edit_request : EditRequest)
    (text_blocks : list TextBlock) :
  Py.strip (target_text edit_request) = EmptyString ->
  _apply_text_replacement client doc edit_request text_blocks
  = replacement_loop doc
      (maybe_humanize client (replacement_text edit_request)) text_blocks
  /\ _apply_highlight doc edit_request text_blocks
     = Some (fold_left
               (fun doc block =>
                  add_highlight_annot doc (page_num block) (bbox block))
               text_blocks doc).
Proof.
  intros H. unfold _apply_text_replacement, _apply_highlight.
  assert (Hall : forall c,
             _find_matching_text_blocks EmptyString text_blocks c = text_blocks).
  { intros c. rewrite find_matching_filters. cbv zeta. simpl Py.lower.
    rewrite (filter_all_true (exact_pred EmptyString)).
    - destruct text_blocks as [|b l]; [|reflexivity].
      simpl. now destruct (Py.truthy_opt c).
    - intros b. rewrite exact_pred_contains. apply contains_empty. }
  rewrite H, !Hall. split; reflexivity.
Qed.

End ApplicatorFacts.

Lemma blank_target_edits_every_block_witness :
  let request := mkEditRequest "highlight" "   " None None in
  let blocks := [plain_block "Introduction"; plain_block "Some body text, here"] in
  Py.strip (target_text request) = EmptyString
  /\ _apply_text_replacement (D := recording_document ["helv"]) no_llm []
       request blocks
     = replacement_loop (D := recording_document ["helv"]) []
         (maybe_humanize no_llm (replacement_text request)) blocks
  /\ _apply_highlight (D := recording_document ["helv"]) [] request blocks
     = Some (fold_left
               (fun doc block =>
                  add_highlight_annot (d := recording_document ["helv"]) doc
                    (page_num block) (bbox block))
               blocks []).
Proof.
  intros request blocks.
  assert (H : Py.strip (target_text request) = EmptyString) by reflexivity.
  split; [exact H|].
  exact (blank_target_edits_every_block (D := recording_document ["helv"])
           no_llm [] request blocks H).
Defined.

(** ** Order of the extracted blocks *)

Lemma sorted_constant_prefix (a : nat) (xs rest : list nat) :
  List.Forall (fun x => x = a) xs ->
  StronglySorted le rest -> List.Forall (le a) rest ->
  StronglySorted le (xs ++ rest) /\ List.Forall (le a) (xs ++ rest).
Proof.
  intros Hxs Hs Hge. induction Hxs as [|x xs Hx _ IH]; simpl; [now split|].
  destruct IH as [IHs IHf]. subst x. split.
  - constructor; assumption.
  - constructor; [lia | assumption].
Qed.

Lemma page_text_blocks_page_num (py : Interpreter) (p : nat * PageDict) :
  List.Forall (fun n => n = fst p)
    (List.map page_num (page_text_blocks py p)).
Proof.
  apply List.Forall_forall. intros n H.
  apply in_map_iff in H as (tb & <- & H).
  unfold page_text_blocks in H. apply in_map_iff in H as (span & <- & _).
  reflexivity.
Qed.

Lemma pages_from_sorted (py : Interpreter) (pages : list PageDict) :
  forall a,
    StronglySorted le
      (List.map page_num
         (flat_map (page_text_blocks py)
            (combine (List.seq a (List.length pages)) pages)))
    /\ List.Forall (le a)
         (List.map page_num
            (flat_map (page_text_blocks py)
               (combine (List.seq a (List.length pages)) pages))).
Proof.
  induction pages as [|p pages IH]; intros a; simpl.
  - split; constructor.
  - rewrite List.map_app.
    destruct (IH (S a)) as [IHs IHf].
    apply sorted_constant_prefix.
    + apply (page_text_blocks_page_num py (a, p)).
    + exact IHs.
    + eapply List.Forall_impl; [|exact IHf]. simpl. intros n Hn. lia.
Qed.

(** X20. The blocks are returned page by page: along the list their page
    numbers never decrease. *)
Theorem extracted_blocks_in_page_order (py : Interpreter) (doc : Document) :
  StronglySorted le (List.map page_num (fst (extract_text_blocks py doc))).
Proof.
  rewrite extract_text_blocks_by_page. unfold enumerate.
  apply (pages_from_sorted py doc 0).
Qed.

(** ** Long texts *)

(** X21. A text of twelve words or more is never a heading by the text
    rules: each of the four rules asks for fewer words. *)
Theorem long_text_is_no_heading (t : string) :
  (12 <= List.length (Py.split (Py.strip t)))%nat ->
  _is_heading t = false.
Proof.
  intros H. unfold _is_heading.
  destruct (negb (Py.truthy (Py.strip t))); [reflexivity|].
  set (n := List.length (Py.split (Py.strip t))) in *.
  assert (H7 : (n <=? 7)%nat = false) by (apply Nat.leb_gt; lia).
  assert (H10 : (n <? 10)%nat = false) by (apply Nat.ltb_ge; lia).
  assert (H5 : (n <? 5)%nat = false) by (apply Nat.ltb_ge; lia).
  assert (H12 : (n <? 12)%nat = false) by (apply Nat.ltb_ge; lia).
  rewrite H7, H10, H5, H12. simpl. now rewrite !andb_false_r.
Qed.

Lemma long_text_is_no_heading_witness :
  let t := "one two three four five six seven eight nine ten eleven twelve" in
  (12 <= List.length (Py.split (Py.strip t)))%nat
  /\ _is_heading t = false.
Proof.
  intros t.
  assert (H : (12 <= List.length (Py.split (Py.strip t)))%nat).
  { vm_compute. apply le_n. }
  split; [exact H|].
  exact (long_text_is_no_heading t H).
Defined.
